(** * nucleasim: the simulation engine of [app.js]

    A shallow embedding of the engine part of [src/app.js]: the model
    table, the RK4 integrator ([rk4Step], [addState], [scaleState]),
    the session globals ([state], [time], [step], [running], [history]),
    the handlers ([tick], [resetSimulation], the run / pause buttons and
    the parameter inputs), and the properties the specification states
    about them.

    JavaScript numbers are IEEE 754 binary64 values: they are embedded as
    Rocq's primitive [float], whose operations are the same binary64
    operations (round to nearest, ties to even).  Objects used as records of
    named scalar fields are finite maps from strings to values; what the
    prototype of such an object adds to it is part of the embedding
    (module [Js]). *)

From Stdlib Require Import Floats ZArith Bool.
From stdpp Require Import gmap strings list fin_maps.

Set Warnings "-inexact-float".

(** * Part I: the program *)

(** ** Numbers *)

Module Number.

(** [isFinite x]: neither NaN nor an infinity. *)
Definition isFinite (x : float) : bool :=
  match Prim2SF x with
  | S754_zero _ | S754_finite _ _ _ => true
  | S754_infinity _ | S754_nan => false
  end.

(** A zero of either sign. *)
Definition isZero (x : float) : bool :=
  match Prim2SF x with
  | S754_zero _ => true
  | _ => false
  end.

End Number.

(** An object all of whose fields are numbers: a state of the session, a
    delta, a parameter object. *)
Abbreviation State := (gmap string float).
Abbreviation Params := (gmap string float).

(** ** Objects, property reads and writes, [+] and [*]

    The objects the integrator is given and the objects it builds are
    ordinary objects: their prototype is [Object.prototype], and their own
    properties are data properties (written by an object literal, by
    [JSON.parse] or by assignment).  [Object.prototype] is as the language
    defines it; the script adds nothing to it.

    An object is the finite map of its own properties.  A property holds a
    number or, once [+] has met something that is not a number, a string. *)

Module Js.

Definition proto : string := "__proto__".

(** The names under which [Object.prototype] has a property of its own.
    [__proto__] is an accessor (its getter returns the prototype, its setter
    ignores a value that is neither an object nor [null]); the others are
    functions. *)
Definition Object_prototype : list string :=
  [ "constructor"; "__defineGetter__"; "__defineSetter__"; "hasOwnProperty";
    "__lookupGetter__"; "__lookupSetter__"; "isPrototypeOf";
    "propertyIsEnumerable"; "toString"; "valueOf"; "__proto__";
    "toLocaleString" ].

Definition inherited (key : string) : bool :=
  existsb (String.eqb key) Object_prototype.

(** A piece of a string: the digits of a number ([ToString] of it), the
    text that a property of [Object.prototype] converts to (the source text
    of a built-in function, which contains [[native code]], or
    [[object Object]]), or the word [undefined]. *)
Inductive Part :=
  | Digits (x : float)
  | Source (name : string)
  | Undefined_text.

(** What a property holds.  [Str before name after] is the string made of
    the pieces [before], then the text of [Object.prototype[name]], then the
    pieces [after]: the only strings that arise here contain such a text.
    None of them is a numeric literal, so [ToNumber] takes each to NaN. *)
Inductive Value :=
  | Num (x : float)
  | Str (before : list Part) (name : string) (after : list Part).

Abbreviation Obj := (gmap string Value).

(** The outcome of a property read [o[key]]: an own property, else the
    property of that name of [Object.prototype], else [undefined]. *)
Inductive Property :=
  | Own (v : Value)
  | Inherited (name : string)
  | Undefined.

Definition get (o : Obj) (key : string) : Property :=
  match o !! key with
  | Some v => Own v
  | None => if inherited key then Inherited key else Undefined
  end.

(** The assignment [o[key] = v] of a number or a string.  When [o] has no
    own property [__proto__], assigning to that name calls the setter of
    [Object.prototype], which ignores [v]: no property is created. *)
Definition set {A : Type} (key : string) (v : A) (o : gmap string A)
    : gmap string A :=
  match o !! key with
  | Some _ => <[key := v]> o
  | None => if String.eqb key proto then o else <[key := v]> o
  end.

(** [ToString] of what a read gave, in pieces. *)
Definition to_parts (p : Property) : list Part :=
  match p with
  | Own (Num x) => [Digits x]
  | Own (Str before name after) => before ++ Source name :: after
  | Inherited name => [Source name]
  | Undefined => [Undefined_text]
  end.

(** [ToNumber] of what a read gave. *)
Definition to_number (p : Property) : float :=
  match p with
  | Own (Num x) => x
  | Own (Str _ _ _) | Inherited _ | Undefined => nan
  end.

(** [l + r]: when one operand is a string, or an object (which converts to
    a string), the two are concatenated; otherwise both are converted to
    numbers and added. *)
Definition add (l r : Property) : Value :=
  match l, r with
  | Own (Str before name after), _ => Str before name (after ++ to_parts r)
  | Inherited name, _ => Str [] name (to_parts r)
  | _, Own (Str before name after) => Str (to_parts l ++ before) name after
  | _, Inherited name => Str (to_parts l) name []
  | _, _ => Num (to_number l + to_number r)
  end.

(** [l * factor], for a number [factor]. *)
Definition mul (l : Property) (factor : float) : float :=
  (to_number l * factor)%float.

(** [addState]: [result] starts as [{}] and is assigned [a[key] + b[key]]
    at each own key of [a]; the assignment to [__proto__] creates nothing. *)
Definition addState (a b : Obj) : Obj :=
  map_imap (λ key x, if String.eqb key proto then None
                     else Some (add (Own x) (get b key))) a.

(** [scaleState]: likewise with [a[key] * factor]. *)
Definition scaleState (a : Obj) (factor : float) : Obj :=
  map_imap (λ key x, if String.eqb key proto then None
                     else Some (Num (mul (Own x) factor))) a.

(** The type of [derivativeFn]: [(state, params, t) => delta]. *)
Abbreviation Derivative := (Obj → Params → float → Obj).

Definition rk4Step (stateObj : Obj) (params : Params) (t dt : float)
    (derivativeFn : Derivative) : Obj :=
  let k1 := derivativeFn stateObj params t in
  let k2 := derivativeFn (addState stateObj (scaleState k1 (dt / 2)))
              params (t + dt / 2)%float in
  let k3 := derivativeFn (addState stateObj (scaleState k2 (dt / 2)))
              params (t + dt / 2)%float in
  let k4 := derivativeFn (addState stateObj (scaleState k3 dt))
              params (t + dt)%float in
  let combined :=
    addState (addState k1 (scaleState k2 2)) (addState (scaleState k3 2) k4) in
  addState stateObj (scaleState combined (dt / 6)).

(** The four deltas [k1 .. k4] that [rk4Step] obtains from [derivativeFn]. *)
Definition rk4_stages (stateObj : Obj) (params : Params) (t dt : float)
    (derivativeFn : Derivative) : list Obj :=
  let k1 := derivativeFn stateObj params t in
  let k2 := derivativeFn (addState stateObj (scaleState k1 (dt / 2)))
              params (t + dt / 2)%float in
  let k3 := derivativeFn (addState stateObj (scaleState k2 (dt / 2)))
              params (t + dt / 2)%float in
  let k4 := derivativeFn (addState stateObj (scaleState k3 dt))
              params (t + dt)%float in
  [k1; k2; k3; k4].

(** An object of numbers, as an object. *)
Definition of_numbers (o : State) : Obj := Num <$> o.

(** The numbers the properties of an object stand for. *)
Definition numbers (o : Obj) : State := (λ v, to_number (Own v)) <$> o.

(** A derivative function whose deltas are objects of numbers. *)
Definition number_valued (f : Obj → Params → float → State) : Derivative :=
  λ o p t, of_numbers (f o p t).

(** No field of [o] goes by a name of [Object.prototype]. *)
Definition plain {A : Type} (o : gmap string A) : Prop :=
  map_Forall (λ key _, inherited key = false) o.

End Js.

(** ** The integrator on objects of numbers

    The session holds objects of numbers only: the states and the
    parameter objects of the model table, and what the integrator makes of
    them.  On such objects [addState], [scaleState] and [rk4Step] are read
    on the numbers.  Where a sum of [Js.addState] is a string, the field
    holds here the number that string stands for, NaN ([numbers_addState],
    [numbers_rk4Step]); for a state with plain field names no string
    arises and the result is the very object that [Js.rk4Step] returns
    ([rk4Step_of_numbers]); the states of the model table are such. *)

(** [o[key]] read where a number is expected: a missing property reads as
    [undefined] or as a property of [Object.prototype], and [ToNumber] takes
    either to NaN. *)
Definition field (o : gmap string float) (key : string) : float :=
  default nan (o !! key).

(** The type of [derivativeFn]: [(state, params, t) => delta]. *)
Abbreviation Derivative := (State → Params → float → State).

(** [addState]: a new object with the keys of [a], [__proto__] apart; [b]
    is read at those keys only. *)
Definition addState (a b : State) : State :=
  map_imap (λ key x, if String.eqb key Js.proto then None
                     else Some (x + field b key)%float) a.

(** [scaleState]: a new object with the keys of [a], [__proto__] apart. *)
Definition scaleState (a : State) (factor : float) : State :=
  map_imap (λ key x, if String.eqb key Js.proto then None
                     else Some (x * factor)%float) a.

Definition rk4Step (stateObj : State) (params : Params) (t dt : float)
    (derivativeFn : Derivative) : State :=
  let k1 := derivativeFn stateObj params t in
  let k2 := derivativeFn (addState stateObj (scaleState k1 (dt / 2)))
              params (t + dt / 2)%float in
  let k3 := derivativeFn (addState stateObj (scaleState k2 (dt / 2)))
              params (t + dt / 2)%float in
  let k4 := derivativeFn (addState stateObj (scaleState k3 dt))
              params (t + dt)%float in
  let combined :=
    addState (addState k1 (scaleState k2 2)) (addState (scaleState k3 2) k4) in
  addState stateObj (scaleState combined (dt / 6)).

(** What [rk4Step] adds to the state, from the four deltas. *)
Definition rk4_increment (k1 k2 k3 k4 : State) (dt : float) : State :=
  scaleState
    (addState (addState k1 (scaleState k2 2)) (addState (scaleState k3 2) k4))
    (dt / 6).

(** *** The classical scheme, as the specification writes it

    Vectors are indexed by the named fields of the state; sums and scalar
    multiples are taken field by field.  The four-term sum is grouped in
    pairs, [(k1 + 2 k2) + (2 k3 + k4)]. *)



(** The four deltas [k1 .. k4] that [rk4Step] obtains from [derivativeFn]. *)
Definition rk4_stages (stateObj : State) (params : Params) (t dt : float)
    (derivativeFn : Derivative) : list State :=
  let k1 := derivativeFn stateObj params t in
  let k2 := derivativeFn (addState stateObj (scaleState k1 (dt / 2)))
              params (t + dt / 2)%float in
  let k3 := derivativeFn (addState stateObj (scaleState k2 (dt / 2)))
              params (t + dt / 2)%float in
  let k4 := derivativeFn (addState stateObj (scaleState k3 dt))
              params (t + dt)%float in
  [k1; k2; k3; k4].

(** ** The model table *)

(** An entry of a model's [parameters] array. *)
Module Param.
Record t := Build {
  key : string;
  label : string;
  value : float;
  min : float;
  max : float;
  step : float
}.

(** [param.value = v]. *)
Definition set_value (v : float) (p : t) : t :=
  Build (key p) (label p) v (min p) (max p) (step p).
End Param.

(** An entry of [history]: [{ t, primary, secondary }]; [t_] is its [t]. *)
Module Sample.
Record t := Build {
  t_ : float;
  primary : float;
  secondary : float
}.
End Sample.

(** An entry of [models].  The texts [description], [code] and [insights]
    are only displayed and are left out. *)
Module Model.
Record t := Build {
  name : string;
  parameters : list Param.t;
  state : State;
  derivatives : Derivative;
  metric : State → Params → float;
  series : State → float * float  (* [(primary, secondary)] *)
}.

Definition set_parameters (ps : list Param.t) (m : t) : t :=
  Build (name m) ps (state m) (derivatives m) (metric m) (series m).
End Model.

(** The table [models].  [Math.sin] is left to the host: the spring and
    the thermal model take it as [Math_sin]. *)
Module models.
Section host.
Variable Math_sin : float → float.

Definition spring : Model.t :=
  Model.Build "Mass-Spring-Damper"
    [ Param.Build "mass" "Mass (kg)" 1.2 0.2 5 0.1;
      Param.Build "stiffness" "Spring k (N/m)" 12 1 40 0.5;
      Param.Build "damping" "Damping c" 0.6 0.1 3 0.05;
      Param.Build "force" "Driving Force" 1.8 0 6 0.1 ]
    {[ "x" := 1%float; "v" := 0%float ]}
    (λ state params t,
       let x := field state "x" in
       let v := field state "v" in
       let mass := field params "mass" in
       let stiffness := field params "stiffness" in
       let damping := field params "damping" in
       let force := field params "force" in
       let drive := (force * Math_sin (1.1 * t))%float in
       let a := ((((- stiffness) * x - damping * v) + drive) / mass)%float in
       {[ "x" := v; "v" := a ]})
    (λ state params,
       let mass := field params "mass" in
       let stiffness := field params "stiffness" in
       let kinetic := (0.5 * mass * field state "v" * field state "v")%float in
       let potential :=
         (0.5 * stiffness * field state "x" * field state "x")%float in
       (kinetic + potential)%float)
    (λ state, (field state "x", field state "v")).

Definition thermal : Model.t :=
  Model.Build "Thermal Network"
    [ Param.Build "capA" "Capacitance A" 6 1 12 0.5;
      Param.Build "capB" "Capacitance B" 4.5 1 12 0.5;
      Param.Build "conduct" "Conductance" 1.6 0.1 5 0.1;
      Param.Build "heater" "Heater Input" 3.2 0 8 0.1 ]
    {[ "tempA" := 2.2%float; "tempB" := 1.1%float ]}
    (λ state params t,
       let tempA := field state "tempA" in
       let tempB := field state "tempB" in
       let capA := field params "capA" in
       let capB := field params "capB" in
       let conduct := field params "conduct" in
       let heater := field params "heater" in
       let external := (1 + 0.6 * Math_sin (0.4 * t))%float in
       let flux := (conduct * (tempB - tempA))%float in
       {[ "tempA" := ((flux + heater * external) / capA)%float;
          "tempB" := (((- flux) + 0.4 * external) / capB)%float ]})
    (λ state _, ((field state "tempA" + field state "tempB") / 2)%float)
    (λ state, (field state "tempA", field state "tempB")).
End host.

Definition predator : Model.t :=
  Model.Build "Predator–Prey"
    [ Param.Build "alpha" "Prey Growth α" 1.1 0.1 3 0.05;
      Param.Build "beta" "Predation β" 0.4 0.05 2 0.05;
      Param.Build "delta" "Predator Gain δ" 0.3 0.05 2 0.05;
      Param.Build "gamma" "Predator Loss γ" 0.9 0.1 3 0.05 ]
    {[ "prey" := 1.4%float; "predator" := 0.8%float ]}
    (λ state params _,
       let prey := field state "prey" in
       let predator := field state "predator" in
       let alpha := field params "alpha" in
       let beta := field params "beta" in
       let delta := field params "delta" in
       let gamma := field params "gamma" in
       {[ "prey" := (alpha * prey - beta * prey * predator)%float;
          "predator" := (delta * prey * predator - gamma * predator)%float ]})
    (λ state _, (field state "prey" + field state "predator")%float)
    (λ state, (field state "prey", field state "predator")).
End models.

(** The keys of the table [models]. *)
Inductive Variant := Spring | Predator | Thermal.

(** [models[key]]. *)
Definition models_entry (Math_sin : float → float) (v : Variant) : Model.t :=
  match v with
  | Spring => models.spring Math_sin
  | Predator => models.predator
  | Thermal => models.thermal Math_sin
  end.

(** ** The session: the script's globals and the page elements it writes

    [currentModel] refers to an entry of [models]; the only part of an
    entry that is ever assigned is the [value] of its parameters.  The
    session holds the active entry with the values as edited, and the
    selector's listener is given the entry it selects.  The texts of
    [elapsedTimeEl] and [stepCountEl] are renderings of [time] and [step]
    and are not kept. *)

Record Session := mkSession {
  currentModel : Model.t;
  state : State;
  time : float;
  step : float;
  running : bool;
  history : list Sample.t;
  (** [canvasStatus.textContent]; [None] when the page has no such element. *)
  canvasStatus : option string;
  (** Whether the canvas gave a 2d context ([ctx] is not null). *)
  ctx : bool;
  (** The number [updateMetric] last handed to [energyMetricEl]. *)
  energyMetric : float;
  (** Callbacks given to [requestAnimationFrame] that have not run yet. *)
  pending : nat
}.

(** The numbers read from the two inputs at each tick:
    [Number(stepSizeInput.value)] and [Number(timeHorizonInput.value)]. *)
Record Inputs := mkInputs {
  stepSizeInput : float;
  timeHorizonInput : float
}.

Section setters.
Implicit Type s : Session.

Definition set_currentModel (m : Model.t) s : Session :=
  mkSession m (state s) (time s) (step s) (running s) (history s)
    (canvasStatus s) (ctx s) (energyMetric s) (pending s).
Definition set_running (b : bool) s : Session :=
  mkSession (currentModel s) (state s) (time s) (step s) b (history s)
    (canvasStatus s) (ctx s) (energyMetric s) (pending s).
Definition set_energyMetric (x : float) s : Session :=
  mkSession (currentModel s) (state s) (time s) (step s) (running s)
    (history s) (canvasStatus s) (ctx s) x (pending s).
Definition set_pending (n : nat) s : Session :=
  mkSession (currentModel s) (state s) (time s) (step s) (running s)
    (history s) (canvasStatus s) (ctx s) (energyMetric s) n.

(** [if (canvasStatus) canvasStatus.textContent = msg]. *)
Definition set_status (msg : string) s : Session :=
  mkSession (currentModel s) (state s) (time s) (step s) (running s)
    (history s) ((λ _, msg) <$> canvasStatus s) (ctx s) (energyMetric s)
    (pending s).
End setters.

(** The texts written to the status line. *)
Definition ready_message : string :=
  "Ready to simulate. Click “Run Simulation” to stream results.".
Definition running_message : string := "Simulation running…".
Definition paused_message : string :=
  "Simulation paused. Resume or reset to continue.".
Definition complete_message : string :=
  "Simulation complete. Adjust parameters or reset to run again.".
Definition no_canvas_message : string :=
  "Canvas unavailable in this environment. Use a modern browser with canvas support.".

(** [deepCopy], a JSON round trip, on an object of numbers.  A finite
    number comes back as itself, except that [-0] is printed ["0"]; NaN and
    the infinities are printed [null]; a [null] field reads as [+0] in every
    arithmetic use and is kept as [0] here.  The states of the table are
    finite. *)
Definition json_number (x : float) : float :=
  if Number.isFinite x then (if Number.isZero x then 0%float else x)
  else 0%float.

Definition deepCopy (obj : State) : State := json_number <$> obj.

(** [params] starts as [{}] and is assigned [param.value] under [param.key]
    for each parameter in turn. *)
Definition getParams (s : Session) : Params :=
  foldl (λ params param, Js.set (Param.key param) (Param.value param) params)
    ∅ (Model.parameters (currentModel s)).

Definition updateMetric (s : Session) : Session :=
  let params := getParams s in
  let metricValue := Model.metric (currentModel s) (state s) params in
  set_energyMetric metricValue s.

(** [drawPlot] paints the canvas; the only thing it writes that the script
    reads back is the status line, when there is no context. *)
Definition drawPlot (s : Session) : Session :=
  if ctx s then s
  else set_status no_canvas_message s.

Definition resetSimulation (s : Session) : Session :=
  let s := mkSession (currentModel s)
             (deepCopy (Model.state (currentModel s))) 0 0 false []
             (canvasStatus s) (ctx s) (energyMetric s) (pending s) in
  let s := set_status ready_message s in
  drawPlot (updateMetric s).

(** [history.push(entry); if (history.length > 800) history.shift();] *)
Definition history_push (history : list Sample.t) (entry : Sample.t)
    : list Sample.t :=
  let history := history ++ [entry] in
  if 800 <? length history then tail history else history.

Definition tick (inputs : Inputs) (s : Session) : Session :=
  if negb (running s) then s
  else
    let dt := stepSizeInput inputs in
    let horizon := timeHorizonInput inputs in
    if (horizon <=? time s)%float then
      set_status complete_message (set_running false s)
    else
      let params := getParams s in
      let state' :=
        rk4Step (state s) params (time s) dt
          (Model.derivatives (currentModel s)) in
      let time' := (time s + dt)%float in
      let step' := (step s + 1)%float in
      let '(primary, secondary) := Model.series (currentModel s) state' in
      let history' :=
        history_push (history s) (Sample.Build time' primary secondary) in
      let s := mkSession (currentModel s) state' time' step' (running s)
                 history' (canvasStatus s) (ctx s) (energyMetric s)
                 (pending s) in
      let s := drawPlot (updateMetric s) in
      set_pending (S (pending s)) s.

(** The browser runs one requested animation-frame callback. *)
Definition frame (inputs : Inputs) (s : Session) : Session :=
  match pending s with
  | O => s
  | S n => tick inputs (set_pending n s)
  end.

(** The pending callbacks are run, at most [fuel] of them, with the inputs
    left as they are: [Some] the session at which none is pending. *)
Fixpoint run_frames (fuel : nat) (inputs : Inputs) (s : Session)
    : option Session :=
  match pending s, fuel with
  | O, _ => Some s
  | S _, O => None
  | S _, S fuel => run_frames fuel inputs (frame inputs s)
  end.

Definition runBtn_click (s : Session) : Session :=
  if running s then s
  else
    let s := set_status running_message (set_running true s) in
    set_pending (S (pending s)) s.

Definition pauseBtn_click (s : Session) : Session :=
  set_status paused_message (set_running false s).

Definition resetBtn_click (s : Session) : Session := resetSimulation s.

(** [param.value = value] on the first parameter whose key is [key]. *)
Fixpoint assign_value (key : string) (value : float) (ps : list Param.t)
    : list Param.t :=
  match ps with
  | [] => []
  | p :: ps =>
      if String.eqb (Param.key p) key then Param.set_value value p :: ps
      else p :: assign_value key value ps
  end.

(** [currentModel.parameters.find((item) => item.key === key)]. *)
Definition find_parameter (key : string) (s : Session) : option Param.t :=
  List.find (λ item, String.eqb (Param.key item) key)
    (Model.parameters (currentModel s)).

(** The [input] listener of a parameter field, with [event.target]'s
    [dataset.key] and [Number(value)].  When [find] yields [undefined] the
    assignment [param.value = value] throws and nothing is changed:
    [None]. *)
Definition parameter_input (key : string) (value : float) (s : Session)
    : option Session :=
  let ps := Model.parameters (currentModel s) in
  match find_parameter key s with
  | None => None
  | Some _ =>
      Some (updateMetric
              (set_currentModel
                 (Model.set_parameters (assign_value key value ps)
                    (currentModel s)) s))
  end.

(** The [change] listener of the model selector, with the table entry
    [models[event.target.value]]. *)
Definition modelSelect_change (m : Model.t) (s : Session) : Session :=
  resetSimulation (set_currentModel m s).

(** The globals as the script initialises them, on a page whose status
    line, canvas and metric read [status], [has_ctx] and [metric0]. *)
Definition page_load (Math_sin : float → float) (status : option string)
    (has_ctx : bool) (metric0 : float) : Session :=
  mkSession (models.spring Math_sin) (Model.state (models.spring Math_sin))
    0 0 false [] status has_ctx metric0 0.

(** What can happen to a session: a callback runs, a button is clicked, a
    parameter field or the selector changes. *)
Inductive Event :=
  | AnimationFrame (inputs : Inputs)
  | RunClick
  | PauseClick
  | ResetClick
  | ParameterInput (key : string) (value : float)
  | ModelSelect (m : Model.t).

(** A listener that throws leaves the globals as they were. *)
Definition handle (s : Session) (e : Event) : Session :=
  match e with
  | AnimationFrame inputs => frame inputs s
  | RunClick => runBtn_click s
  | PauseClick => pauseBtn_click s
  | ResetClick => resetBtn_click s
  | ParameterInput key value => default s (parameter_input key value s)
  | ModelSelect m => modelSelect_change m s
  end.

(** ** The clock of a session

    Whether and when the tick loop stops depends only on the time, the
    running flag and the pending callbacks; the step counter and the
    length of the history follow along.  [Clock] keeps these five and
    [clock_tick] is [tick] read on them. *)

Record Clock := mkClock {
  c_time : float;
  c_step : float;
  c_length : nat;
  c_running : bool;
  c_pending : nat
}.

Definition clock (s : Session) : Clock :=
  mkClock (time s) (step s) (length (history s)) (running s) (pending s).

Definition clock_tick (inputs : Inputs) (c : Clock) : Clock :=
  if negb (c_running c) then c
  else if (timeHorizonInput inputs <=? c_time c)%float then
    mkClock (c_time c) (c_step c) (c_length c) false (c_pending c)
  else
    let n := S (c_length c) in
    mkClock (c_time c + stepSizeInput inputs)%float (c_step c + 1)%float
      (if 800 <? n then Nat.pred n else n) (c_running c) (S (c_pending c)).

Definition clock_frame (inputs : Inputs) (c : Clock) : Clock :=
  match c_pending c with
  | O => c
  | S n =>
      clock_tick inputs
        (mkClock (c_time c) (c_step c) (c_length c) (c_running c) n)
  end.

Fixpoint clock_run (fuel : nat) (inputs : Inputs) (c : Clock) : option Clock :=
  match c_pending c, fuel with
  | O, _ => Some c
  | S _, O => None
  | S _, S fuel => clock_run fuel inputs (clock_frame inputs c)
  end.

(** ** The integrator on a store of objects

    [addState] and [scaleState] build a new object and assign its properties
    one by one; [rk4Step] passes references around.  Here objects live in a
    store, a reference is the index of its object, and a JavaScript function
    is a computation on the store.  [obj h r] is the object that [r] names
    in [h]. *)

Module Store.

Abbreviation Ref := nat.
Abbreviation Heap := (list Js.Obj).

Definition M (A : Type) : Type := Heap → A * Heap.

Definition ret {A : Type} (x : A) : M A := λ h, (x, h).

Definition bind {A B : Type} (m : M A) (k : A → M B) : M B :=
  λ h, let '(x, h') := m h in k x h'.

#[local] Notation "'let*' x := m 'in' k" := (bind m (λ x, k))
  (at level 10, x name, m at level 100, k at level 200, only parsing).

Definition obj (h : Heap) (r : Ref) : Js.Obj := default ∅ (h !! r).

(** [{}] *)
Definition new_object : M Ref := λ h, (length h, h ++ [∅]).

(** [r[key]] *)
Definition get (r : Ref) (key : string) : M Js.Property :=
  λ h, (Js.get (obj h r) key, h).

(** [r[key] = v] *)
Definition put (r : Ref) (key : string) (v : Js.Value) : M unit :=
  λ h, (tt, alter (Js.set key v) r h).

(** [Object.keys(r)] *)
Definition keys (r : Ref) : M (list string) :=
  λ h, ((map_to_list (obj h r)).*1, h).

(** [ks.forEach(body)] *)
Fixpoint forEach (ks : list string) (body : string → M unit) : M unit :=
  match ks with
  | [] => ret tt
  | key :: ks => let* _ := body key in forEach ks body
  end.

(** A [derivativeFn]: given a reference to the state, it returns a
    reference to its delta. *)
Abbreviation Derivative := (Ref → Params → float → M Ref).

Definition addState (a b : Ref) : M Ref :=
  let* result := new_object in
  let* ks := keys a in
  let* _ := forEach ks (λ key,
              let* x := get a key in
              let* y := get b key in
              put result key (Js.add x y)) in
  ret result.

Definition scaleState (a : Ref) (factor : float) : M Ref :=
  let* result := new_object in
  let* ks := keys a in
  let* _ := forEach ks (λ key,
              let* x := get a key in
              put result key (Js.Num (Js.mul x factor))) in
  ret result.

Definition rk4Step (stateObj : Ref) (params : Params) (t dt : float)
    (derivativeFn : Derivative) : M Ref :=
  let* k1 := derivativeFn stateObj params t in
  let* d1 := scaleState k1 (dt / 2) in
  let* s1 := addState stateObj d1 in
  let* k2 := derivativeFn s1 params (t + dt / 2)%float in
  let* d2 := scaleState k2 (dt / 2) in
  let* s2 := addState stateObj d2 in
  let* k3 := derivativeFn s2 params (t + dt / 2)%float in
  let* d3 := scaleState k3 dt in
  let* s3 := addState stateObj d3 in
  let* k4 := derivativeFn s3 params (t + dt)%float in
  let* k2x2 := scaleState k2 2 in
  let* left := addState k1 k2x2 in
  let* k3x2 := scaleState k3 2 in
  let* right := addState k3x2 k4 in
  let* combined := addState left right in
  let* scaled := scaleState combined (dt / 6) in
  addState stateObj scaled.

(** A derivative function that writes to no object it did not create: the
    store it leaves is the one it found, with new objects after it, and
    the reference it returns names an object. *)
Definition allocates_only (derivativeFn : Derivative) : Prop :=
  ∀ (s : Ref) (p : Params) (t : float) (h : Heap),
    s < length h →
    h `prefix_of` (derivativeFn s p t h).2
    ∧ (derivativeFn s p t h).1 < length (derivativeFn s p t h).2.

(** [derivativeFn] computes the function [f] of the object it is given. *)
Definition implements (derivativeFn : Derivative) (f : Js.Derivative) : Prop :=
  ∀ (s : Ref) (p : Params) (t : float) (h : Heap),
    s < length h →
    obj (derivativeFn s p t h).2 (derivativeFn s p t h).1 = f (obj h s) p t.

(** The function [f] as a store computation: the delta is a new object. *)
Definition of_function (f : Js.Derivative) : Derivative :=
  λ s p t h, (length h, h ++ [f (obj h s) p t]).

End Store.

(** [r] names an object of [h], and that object is [v]. *)
Definition holds (h : Store.Heap) (r : Store.Ref) (v : Js.Obj) : Prop :=
  r < length h ∧ Store.obj h r = v.

(** ** Vocabulary of the properties *)





(** The delta that is [c] at every field of the object it is given. *)
Definition constant_derivative (c : float) : Js.Obj → Params → float → State :=
  λ o _ _, (λ _, c) <$> o.


(** Whether the callback that the browser runs next on [s] executes an
    integration step: one is pending, the session is running and the time
    is below the horizon. *)
Definition executes (inputs : Inputs) (s : Session) : bool :=
  negb (Nat.eqb (pending s) 0) && running s
  && negb (timeHorizonInput inputs <=? time s)%float.

(** [{ t: time, ...currentModel.series(state) }] *)
Definition current_sample (s : Session) : Sample.t :=
  Sample.Build (time s) (Model.series (currentModel s) (state s)).1
    (Model.series (currentModel s) (state s)).2.

(** The samples that the executed steps have pushed since the last reset
    or model selection, in the order pushed, when [events] are handled from
    [s] on; [pushed] are those pushed before. *)
Fixpoint pushed_samples (pushed : list Sample.t) (s : Session)
    (events : list Event) : list Sample.t :=
  match events with
  | [] => pushed
  | e :: events =>
      let s' := handle s e in
      let pushed' :=
        match e with
        | AnimationFrame inputs =>
            if executes inputs s then pushed ++ [current_sample s']
            else pushed
        | ResetClick | ModelSelect _ => []
        | RunClick | PauseClick | ParameterInput _ _ => pushed
        end in
      pushed_samples pushed' s' events
  end.

(** The number of integration steps executed since the last reset or model
    selection when [events] are handled from [s] on; [n] is the number
    executed before. *)
Fixpoint executed_steps (n : nat) (s : Session) (events : list Event) : nat :=
  match events with
  | [] => n
  | e :: events =>
      let n' :=
        match e with
        | AnimationFrame inputs => if executes inputs s then S n else n
        | ResetClick | ModelSelect _ => 0
        | RunClick | PauseClick | ParameterInput _ _ => n
        end in
      executed_steps n' (handle s e) events
  end.

(** ** Concrete inputs *)

(** The inputs of the scenario: [dt = 0.05], [horizon = 5]. *)
Definition scenario_inputs : Inputs := mkInputs 0.05 5.

(** The session after the predator-prey entry was selected on a page with a
    status line and a canvas. *)
Definition predator_idle : Session :=
  mkSession models.predator (Model.state models.predator) 0 0 false []
    (Some ready_message) true 2.2000000000000002 0.

(** A derivative whose delta lacks the field [v], and one whose delta has
    the field [w] besides. *)
Definition delta_without_v : Js.Obj → Params → float → State :=
  λ _ _ _, {[ "x" := 1%float ]}.
Definition delta_with_w : Js.Obj → Params → float → State :=
  λ _ _ _, {[ "x" := 1%float; "v" := 1%float; "w" := 1%float ]}.

(** A state with a field [__proto__] of its own, and one with a field
    [toString]. *)
Definition state_with_proto : State :=
  {[ "x" := 1%float; "__proto__" := 2%float ]}.
Definition state_with_toString : State :=
  {[ "x" := 1%float; "toString" := 0%float ]}.

(** ** Vocabulary of the further properties *)

(** The keys a model declares, in the order of its [parameters] array. *)
Definition declared_keys (s : Session) : list string :=
  Param.key <$> Model.parameters (currentModel s).

(** The metric on display is the metric of the current state and
    parameter values. *)
Definition metric_in_sync (s : Session) : Prop :=
  energyMetric s
  = Model.metric (currentModel s) (state s) (getParams s).

(** The time after [n] additions of [dt], starting from [t]. *)
Definition time_after (n : nat) (dt t : float) : float :=
  Nat.iter n (λ t', (t' + dt)%float) t.

(** The length of the history after [n] pushes onto a history of length
    [len]. *)
Definition length_after (n len : nat) : nat :=
  Nat.iter n (λ l, let m := S l in if 800 <? m then Nat.pred m else m) len.

(** The state has exactly the fields of the active model's initial state. *)
Definition keys_match (s : Session) : Prop :=
  dom (state s) = dom (Model.state (currentModel s)).

(** The fields of the state are fields of the active model's initial state,
    and every field of that initial state, [__proto__] apart, is a field of
    the state. *)
Definition keys_kept (s : Session) : Prop :=
  dom (state s) ⊆ dom (Model.state (currentModel s))
  ∧ dom (Model.state (currentModel s)) ∖ {[Js.proto]} ⊆ dom (state s).

(** A running session at time 1 with one callback pending. *)
Definition predator_at_one : Session :=
  mkSession models.predator (Model.state models.predator) 1 20 true []
    (Some running_message) true 2.2000000000000002 1.

(** ** The plot

    [drawPlot] paints the canvas through its 2d context.  The calls it
    makes are kept as a list, in order; the canvas size [width] x [height]
    is read from the page. *)

(** [Math.min], [Math.max] and the truth value of a number. *)
Module Math.

Definition isNaN (x : float) : bool :=
  match Prim2SF x with
  | S754_nan => true
  | _ => false
  end.

Definition isNegativeZero (x : float) : bool :=
  match Prim2SF x with
  | S754_zero true => true
  | _ => false
  end.

Definition isPositiveZero (x : float) : bool :=
  match Prim2SF x with
  | S754_zero false => true
  | _ => false
  end.

(** [Math.min(...values)]: a NaN argument gives NaN; [-0] is below [+0];
    with no argument the result is [+Infinity]. *)
Fixpoint min_from (lowest : float) (values : list float) : float :=
  match values with
  | [] => lowest
  | number :: values =>
      if isNaN number then nan
      else if isNegativeZero number && isPositiveZero lowest
      then min_from number values
      else if (number <? lowest)%float then min_from number values
      else min_from lowest values
  end.

Definition min (values : list float) : float := min_from infinity values.

(** [Math.max(...values)]: a NaN argument gives NaN; [+0] is above [-0];
    with no argument the result is [-Infinity]. *)
Fixpoint max_from (highest : float) (values : list float) : float :=
  match values with
  | [] => highest
  | number :: values =>
      if isNaN number then nan
      else if isPositiveZero number && isNegativeZero highest
      then max_from number values
      else if (highest <? number)%float then max_from number values
      else max_from highest values
  end.

Definition max (values : list float) : float := max_from neg_infinity values.

(** [a || b] on numbers: [a] unless it is [0], [-0] or NaN. *)
Definition or_else (a b : float) : float :=
  if isNaN a || Number.isZero a then b else a.

End Math.

(** A call on the 2d context, or an assignment to one of its properties. *)
Inductive CanvasOp :=
  | clearRect (x y w h : float)
  | fillStyle (color : string)
  | fillRect (x y w h : float)
  | strokeStyle (color : string)
  | lineWidth (w : float)
  | beginPath
  | moveTo (x y : float)
  | lineTo (x y : float)
  | stroke.

(** The array index or length [n] as a number. *)
Definition of_index (n : nat) : float :=
  of_uint63 (Uint63.of_Z (Z.of_nat n)).

(** The five horizontal grid lines. *)
Definition grid_ops (width height : float) : list CanvasOp :=
  flat_map
    (λ i, let y := (height / 6 * i)%float in
          [beginPath; moveTo 0 y; lineTo width y; stroke])
    [1%float; 2%float; 3%float; 4%float; 5%float].

(** [history.flatMap((entry) => [entry.primary, entry.secondary])] *)
Definition plot_values (history : list Sample.t) : list float :=
  flat_map (λ entry, [Sample.primary entry; Sample.secondary entry]) history.

(** [drawSeries(key, color)], with [key] as the projection it selects. *)
Definition drawSeries (width height min range : float)
    (history : list Sample.t) (key : Sample.t → float) (color : string)
    : list CanvasOp :=
  [strokeStyle color; lineWidth 2; beginPath]
  ++ imap (λ index entry,
             let x := (of_index index / (of_index (length history) - 1)
                       * (width - 20) + 10)%float in
             let y := (height - (key entry - min) / range * (height - 20)
                       - 10)%float in
             match index with
             | O => moveTo x y
             | S _ => lineTo x y
             end) history
  ++ [stroke].

(** What [drawPlot] paints after the grid. *)
Definition plot_series (width height : float) (history : list Sample.t)
    : list CanvasOp :=
  if length history <? 2 then []
  else
    let values := plot_values history in
    let min := Math.min values in
    let max := Math.max values in
    let range := Math.or_else (max - min) 1 in
    drawSeries width height min range history Sample.primary "#6ee7ff"
    ++ drawSeries width height min range history Sample.secondary "#4c9af1".

(** The calls [drawPlot] makes on the context; none when there is no
    context. *)
Definition drawPlot_canvas (width height : float) (s : Session)
    : list CanvasOp :=
  if ctx s then
    [ clearRect 0 0 width height;
      fillStyle "#0c0f17";
      fillRect 0 0 width height;
      strokeStyle "rgba(255,255,255,0.06)";
      lineWidth 1 ]
    ++ grid_ops width height
    ++ plot_series width height (history s)
  else [].

(** The vertical coordinate of a point added to the path. *)
Definition path_y (op : CanvasOp) : option float :=
  match op with
  | moveTo _ y | lineTo _ y => Some y
  | _ => None
  end.

(** A paused session whose two samples hold the same value everywhere. *)
Definition flat_session : Session :=
  mkSession models.predator (Model.state models.predator) 2 2 false
    [Sample.Build 1 3 3; Sample.Build 2 3 3]
    (Some paused_message) true 2.2000000000000002 0.

(** [m] is an entry of the table, with any values of its parameters. *)
Definition table_model (Math_sin : float → float) (m : Model.t) : Prop :=
  ∃ (v : Variant) (ps : list Param.t),
    m = Model.set_parameters ps (models_entry Math_sin v).

(** An event of the page as it is: the selector offers entries of the
    table only. *)
Definition table_event (Math_sin : float → float) (e : Event) : Prop :=
  match e with
  | ModelSelect m => table_model Math_sin m
  | _ => True
  end.

(** A callback or a click on Run or Pause. *)
Definition run_event (e : Event) : Prop :=
  match e with
  | AnimationFrame _ | RunClick | PauseClick => True
  | _ => False
  end.

(** The history is empty, or its newest sample is the projection of the
    current state at the current time. *)
Definition newest_sample_current (s : Session) : Prop :=
  history s = []
  ∨ last (history s)
    = Some (Sample.Build (time s)
              (Model.series (currentModel s) (state s)).1
              (Model.series (currentModel s) (state s)).2).

(** The step counter and the history length after [n] counted steps: [0]
    raised by one [n] times, and [n] samples, or 800 once [n] is larger. *)
Definition steps_counted (n : nat) (s : Session) : Prop :=
  step s = time_after n 1 0 ∧ length (history s) = Nat.min 800 n.

(** * Part II: properties *)

(** ** Binary64 arithmetic *)

Module NumberFacts.
Import Number.

Lemma nan_spec : Prim2SF nan = S754_nan.
Proof. reflexivity. Qed.

Lemma mul_comm (x y : float) : (x * y = y * x)%float.
Proof.
  apply Prim2SF_inj. rewrite !mul_spec.
  destruct (Prim2SF x) as [sx|sx| |sx mx ex], (Prim2SF y) as [sy|sy| |sy my ey];
    cbn; rewrite ?(xorb_comm sx sy); try reflexivity.
  by rewrite Pos.mul_comm, Z.add_comm.
Qed.

Lemma add_nan_r (x : float) : (x + nan = nan)%float.
Proof.
  apply Prim2SF_inj. rewrite add_spec, nan_spec. by destruct (Prim2SF x).
Qed.

Lemma add_nan_l (x : float) : (nan + x = nan)%float.
Proof. apply Prim2SF_inj. by rewrite add_spec, nan_spec. Qed.

Lemma mul_nan_l (x : float) : (nan * x = nan)%float.
Proof. apply Prim2SF_inj. by rewrite mul_spec, nan_spec. Qed.

Lemma mul_nan_r (x : float) : (x * nan = nan)%float.
Proof. by rewrite mul_comm, mul_nan_l. Qed.


Lemma isZero_mul_finite (x c : float) :
  isZero x = true → isFinite c = true → isZero (x * c) = true.
Proof.
  unfold isZero, isFinite. rewrite mul_spec.
  destruct (Prim2SF x), (Prim2SF c); done.
Qed.


End NumberFacts.

(** ** Field-wise reading of [addState] and [scaleState] *)

Section fieldwise.
Implicit Types (a b : State) (key : string) (c : float).

Lemma lookup_addState a b key :
  addState a b !! key
  = if String.eqb key Js.proto then None
    else (λ x, (x + field b key)%float) <$> a !! key.
Proof.
  unfold addState. rewrite map_lookup_imap.
  destruct (a !! key); simpl; by destruct (String.eqb key Js.proto).
Qed.

Lemma lookup_scaleState a c key :
  scaleState a c !! key
  = if String.eqb key Js.proto then None
    else (λ x, (x * c)%float) <$> a !! key.
Proof.
  unfold scaleState. rewrite map_lookup_imap.
  destruct (a !! key); simpl; by destruct (String.eqb key Js.proto).
Qed.


Lemma eqb_proto_ne key : key ≠ Js.proto → String.eqb key Js.proto = false.
Proof. intros Hne. by apply String.eqb_neq. Qed.

Lemma field_addState a b key :
  key ≠ Js.proto →
  field (addState a b) key = (field a key + field b key)%float.
Proof.
  intros Hne. unfold field at 1 2. rewrite lookup_addState, eqb_proto_ne by done.
  destruct (a !! key); simpl; [done|]. by rewrite NumberFacts.add_nan_l.
Qed.

Lemma field_scaleState a c key :
  key ≠ Js.proto → field (scaleState a c) key = (field a key * c)%float.
Proof.
  intros Hne. unfold field. rewrite lookup_scaleState, eqb_proto_ne by done.
  destruct (a !! key); simpl; [done|]. by rewrite NumberFacts.mul_nan_l.
Qed.

Lemma dom_addState a b : dom (addState a b) = dom a ∖ {[Js.proto]}.
Proof.
  apply set_eq. intros key.
  rewrite elem_of_difference, not_elem_of_singleton, !elem_of_dom, lookup_addState.
  destruct (String.eqb_spec key Js.proto) as [->|Hne].
  - split; [intros Hsome; by apply is_Some_None in Hsome|by intros [_ Hne]].
  - rewrite fmap_is_Some. split; [by intros Hsome|by intros [Hsome _]].
Qed.

Lemma dom_scaleState a c : dom (scaleState a c) = dom a ∖ {[Js.proto]}.
Proof.
  apply set_eq. intros key.
  rewrite elem_of_difference, not_elem_of_singleton, !elem_of_dom,
    lookup_scaleState.
  destruct (String.eqb_spec key Js.proto) as [->|Hne].
  - split; [intros Hsome; by apply is_Some_None in Hsome|by intros [_ Hne]].
  - rewrite fmap_is_Some. split; [by intros Hsome|by intros [Hsome _]].
Qed.

End fieldwise.

Lemma dom_rk4Step (s : State) (p : Params) (t dt : float) (f : Derivative) :
  dom (rk4Step s p t dt f) = dom s ∖ {[Js.proto]}.
Proof. unfold rk4Step. by rewrite dom_addState. Qed.

(** What [rk4Step] adds, field by field. *)
Lemma lookup_rk4_increment (k1 k2 k3 k4 : State) (dt : float) (key : string) :
  key ≠ Js.proto →
  rk4_increment k1 k2 k3 k4 dt !! key
  = (λ y, ((y + field k2 key * 2) + (field k3 key * 2 + field k4 key))
           * (dt / 6))%float
    <$> k1 !! key.
Proof.
  intros Hne. unfold rk4_increment.
  rewrite lookup_scaleState, !lookup_addState, eqb_proto_ne by done.
  destruct (k1 !! key) as [y|]; simpl; [|done].
  by rewrite field_addState, !field_scaleState.
Qed.


(** ** Objects and the numbers they stand for *)

Section objects.
Implicit Types (a b : Js.Obj) (s k : State) (key : string) (c : float).

Lemma lookup_of_numbers s key : Js.of_numbers s !! key = Js.Num <$> s !! key.
Proof. unfold Js.of_numbers. by rewrite lookup_fmap. Qed.

Lemma lookup_numbers a key :
  Js.numbers a !! key = (λ v, Js.to_number (Js.Own v)) <$> a !! key.
Proof. unfold Js.numbers. by rewrite lookup_fmap. Qed.

Lemma numbers_of_numbers s : Js.numbers (Js.of_numbers s) = s.
Proof.
  apply map_eq. intros key. rewrite lookup_numbers, lookup_of_numbers.
  by destruct (s !! key).
Qed.

Lemma dom_of_numbers s : dom (Js.of_numbers s) = dom s.
Proof. unfold Js.of_numbers. by rewrite dom_fmap_L. Qed.

Lemma get_of_numbers s key :
  Js.get (Js.of_numbers s) key
  = match s !! key with
    | Some x => Js.Own (Js.Num x)
    | None => if Js.inherited key then Js.Inherited key else Js.Undefined
    end.
Proof. unfold Js.get. rewrite lookup_of_numbers. by destruct (s !! key). Qed.

Lemma field_numbers a key :
  field (Js.numbers a) key = Js.to_number (Js.get a key).
Proof.
  unfold field, Js.get. rewrite lookup_numbers.
  destruct (a !! key); simpl; [done|]. by destruct (Js.inherited key).
Qed.

Lemma lookup_addState_obj a b key :
  Js.addState a b !! key
  = if String.eqb key Js.proto then None
    else (λ x, Js.add (Js.Own x) (Js.get b key)) <$> a !! key.
Proof.
  unfold Js.addState. rewrite map_lookup_imap.
  destruct (a !! key); simpl; by destruct (String.eqb key Js.proto).
Qed.

Lemma lookup_scaleState_obj a c key :
  Js.scaleState a c !! key
  = if String.eqb key Js.proto then None
    else (λ x, Js.Num (Js.mul (Js.Own x) c)) <$> a !! key.
Proof.
  unfold Js.scaleState. rewrite map_lookup_imap.
  destruct (a !! key); simpl; by destruct (String.eqb key Js.proto).
Qed.

Lemma dom_addState_obj a b : dom (Js.addState a b) = dom a ∖ {[Js.proto]}.
Proof.
  apply set_eq. intros key.
  rewrite elem_of_difference, not_elem_of_singleton, !elem_of_dom,
    lookup_addState_obj.
  destruct (String.eqb_spec key Js.proto) as [->|Hne].
  - split; [intros Hsome; by apply is_Some_None in Hsome|by intros [_ Hne]].
  - rewrite fmap_is_Some. split; [by intros Hsome|by intros [Hsome _]].
Qed.

(** The number a sum stands for is the sum of the numbers. *)
Lemma to_number_add (l r : Js.Property) :
  Js.to_number (Js.Own (Js.add l r)) = (Js.to_number l + Js.to_number r)%float.
Proof.
  destruct l as [[x|bl nl al]|nl|], r as [[y|br nr ar]|nr|]; simpl;
    by rewrite ?NumberFacts.add_nan_l, ?NumberFacts.add_nan_r.
Qed.

(** [addState] on numbers gives, field by field, the number that the
    value in the object built by [Js.addState] stands for. *)
Lemma numbers_addState a b :
  Js.numbers (Js.addState a b) = addState (Js.numbers a) (Js.numbers b).
Proof.
  apply map_eq. intros key.
  rewrite lookup_numbers, lookup_addState_obj, lookup_addState, lookup_numbers.
  destruct (String.eqb key Js.proto); [done|].
  destruct (a !! key) as [v|]; [|done].
  change (Some (Js.to_number (Js.Own (Js.add (Js.Own v) (Js.get b key))))
          = Some (Js.to_number (Js.Own v) + field (Js.numbers b) key)%float).
  by rewrite to_number_add, field_numbers.
Qed.

(** What [Js.scaleState] builds is an object of numbers. *)
Lemma scaleState_numbers a c :
  Js.scaleState a c = Js.of_numbers (scaleState (Js.numbers a) c).
Proof.
  apply map_eq. intros key.
  rewrite lookup_scaleState_obj, lookup_of_numbers, lookup_scaleState,
    lookup_numbers.
  destruct (String.eqb key Js.proto); [done|]. by destruct (a !! key).
Qed.

(** When every read of [k] finds a field of [k] itself or is [undefined],
    the sums are numbers. *)
Lemma addState_of_numbers_own s k :
  (∀ key, key ∈ dom s → key ≠ Js.proto →
     key ∈ dom k ∨ Js.inherited key = false) →
  Js.addState (Js.of_numbers s) (Js.of_numbers k)
  = Js.of_numbers (addState s k).
Proof.
  intros Hreads. apply map_eq. intros key.
  rewrite lookup_addState_obj, !lookup_of_numbers, lookup_addState.
  destruct (String.eqb_spec key Js.proto) as [->|Hne]; [done|].
  destruct (s !! key) as [x|] eqn:Hx; simpl; [|done].
  rewrite get_of_numbers. unfold field.
  destruct (k !! key) as [y|] eqn:Hy; simpl; [done|].
  destruct (Hreads key) as [Hin|Hplain]; [by apply elem_of_dom; eauto|done| |by rewrite Hplain].
  apply elem_of_dom in Hin as [y Hy']. congruence.
Qed.

Lemma plain_lookup {A : Type} (o : gmap string A) key (x : A) :
  Js.plain o → o !! key = Some x → Js.inherited key = false.
Proof. intros Hplain Hx. by apply (Hplain key x). Qed.


Lemma addState_of_numbers s k :
  Js.plain s →
  Js.addState (Js.of_numbers s) (Js.of_numbers k)
  = Js.of_numbers (addState s k).
Proof.
  intros Hplain. apply addState_of_numbers_own.
  intros key [x Hx]%elem_of_dom _. right. by eapply plain_lookup.
Qed.

(** On a state with plain field names and a derivative function that takes
    objects of numbers to objects of numbers, [rk4Step] on numbers is
    [Js.rk4Step]. *)
Lemma rk4Step_of_numbers (state : State) (params : Params) (t dt : float)
    (derivativeFn : Js.Derivative) (derivatives : Derivative) :
  Js.plain state →
  (∀ s p t',
     derivativeFn (Js.of_numbers s) p t' = Js.of_numbers (derivatives s p t')) →
  Js.rk4Step (Js.of_numbers state) params t dt derivativeFn
  = Js.of_numbers (rk4Step state params t dt derivatives).
Proof.
  intros Hplain HF. unfold Js.rk4Step, rk4Step.
  repeat first
    [ rewrite HF
    | rewrite scaleState_numbers
    | rewrite numbers_addState
    | rewrite numbers_of_numbers
    | rewrite (addState_of_numbers state) by done ].
  reflexivity.
Qed.

(** For a derivative function that depends on its argument through the
    numbers only, [rk4Step] on numbers gives, for any object, the numbers
    that the result of [Js.rk4Step] stands for. *)
Lemma numbers_rk4Step (stateObj : Js.Obj) (params : Params) (t dt : float)
    (derivatives : Derivative) :
  Js.numbers
    (Js.rk4Step stateObj params t dt
       (λ o p t', Js.of_numbers (derivatives (Js.numbers o) p t')))
  = rk4Step (Js.numbers stateObj) params t dt derivatives.
Proof.
  unfold Js.rk4Step, rk4Step.
  repeat first
    [ rewrite numbers_addState
    | rewrite scaleState_numbers
    | rewrite numbers_of_numbers ].
  reflexivity.
Qed.

(** With deltas that are objects of numbers, [Js.rk4Step] adds to the
    state an object of numbers, made from the four deltas; each delta was
    computed from an object that has the fields of the state, [__proto__]
    apart. *)
Lemma rk4Step_number_valued (stateObj : Js.Obj) (params : Params)
    (t dt : float) (f : Js.Obj → Params → float → State) :
  ∃ k1 k2 k3 k4 : State,
    Js.rk4_stages stateObj params t dt (Js.number_valued f)
    = [Js.of_numbers k1; Js.of_numbers k2; Js.of_numbers k3; Js.of_numbers k4]
    ∧ k1 = f stateObj params t
    ∧ Forall (λ k, ∃ o p t', k = f o p t'
                             ∧ dom stateObj ∖ {[Js.proto]} ⊆ dom o)
        [k1; k2; k3; k4]
    ∧ Js.rk4Step stateObj params t dt (Js.number_valued f)
      = Js.addState stateObj (Js.of_numbers (rk4_increment k1 k2 k3 k4 dt)).
Proof.
  unfold Js.rk4_stages, Js.rk4Step, Js.number_valued.
  do 4 eexists. split; [reflexivity|]. split; [reflexivity|]. split.
  - repeat apply Forall_cons_2; [..|apply Forall_nil_2];
      do 3 eexists; (split; [reflexivity|]);
      rewrite ?dom_addState_obj;
      first [reflexivity | by apply subseteq_difference_l].
  - rewrite (scaleState_numbers (Js.addState _ _)), !numbers_addState,
      !scaleState_numbers, !numbers_of_numbers.
    reflexivity.
Qed.

(** An assignment creates no field [__proto__]. *)
Lemma set_proto_None {A : Type} (key : string) (v : A) (o : gmap string A) :
  o !! Js.proto = None → Js.set key v o !! Js.proto = None.
Proof.
  intros Ho. unfold Js.set. destruct (o !! key) eqn:Hkey.
  - rewrite lookup_insert_ne; [done|]. congruence.
  - destruct (String.eqb_spec key Js.proto) as [->|Hne]; [done|].
    by rewrite lookup_insert_ne.
Qed.

Lemma lookup_set {A : Type} (key key' : string) (v : A) (o : gmap string A) :
  o !! Js.proto = None →
  Js.set key v o !! key'
  = if String.eqb key' Js.proto then None
    else if decide (key' = key) then Some v else o !! key'.
Proof.
  intros Ho. destruct (String.eqb_spec key' Js.proto) as [->|Hne'].
  - by apply set_proto_None.
  - unfold Js.set. destruct (decide (key' = key)) as [->|Hne].
    + rewrite eqb_proto_ne by done.
      destruct (o !! key); by rewrite lookup_insert_eq.
    + destruct (o !! key); [by rewrite lookup_insert_ne|].
      destruct (String.eqb key Js.proto); [done|]. by rewrite lookup_insert_ne.
Qed.

End objects.




(** ** What a reset leaves *)

Lemma resetSimulation_fields (s : Session) :
  time (resetSimulation s) = 0%float
  ∧ step (resetSimulation s) = 0%float
  ∧ state (resetSimulation s) = deepCopy (Model.state (currentModel s))
  ∧ history (resetSimulation s) = []
  ∧ running (resetSimulation s) = false
  ∧ currentModel (resetSimulation s) = currentModel s
  ∧ pending (resetSimulation s) = pending s.
Proof. unfold resetSimulation, drawPlot. simpl. by destruct (ctx s). Qed.

(** ** The clock follows the session *)

Lemma length_history_push (h : list Sample.t) (x : Sample.t) :
  length (history_push h x)
  = let n := S (length h) in if 800 <? n then Nat.pred n else n.
Proof.
  unfold history_push. rewrite length_app, Nat.add_1_r. simpl.
  destruct (800 <? S (length h)); [|by rewrite length_app, Nat.add_1_r].
  destruct h; simpl; [done|]. by rewrite length_app, Nat.add_1_r.
Qed.

Lemma clock_tick_spec (inputs : Inputs) (s : Session) :
  clock (tick inputs s) = clock_tick inputs (clock s).
Proof.
  unfold tick, clock_tick. simpl.
  destruct (running s) eqn:Hr; simpl; [|by unfold clock; rewrite ?Hr].
  destruct (timeHorizonInput inputs <=? time s)%float; [done|].
  destruct (Model.series _ _) as [primary secondary].
  unfold clock, drawPlot. simpl. destruct (ctx s); simpl;
    by rewrite length_history_push, ?Hr.
Qed.

Lemma clock_frame_spec (inputs : Inputs) (s : Session) :
  clock (frame inputs s) = clock_frame inputs (clock s).
Proof.
  unfold frame, clock_frame. simpl. destruct (pending s); [done|].
  by rewrite clock_tick_spec.
Qed.

Lemma clock_run_spec (fuel : nat) (inputs : Inputs) (s : Session) :
  clock <$> run_frames fuel inputs s = clock_run fuel inputs (clock s).
Proof.
  revert s. induction fuel as [|fuel IH]; intros s; simpl;
    destruct (pending s) eqn:Hp; try done.
  by rewrite IH, clock_frame_spec.
Qed.

(** More fuel does not change where the loop stops. *)
Lemma run_frames_more (fuel extra : nat) (inputs : Inputs) (s s' : Session) :
  run_frames fuel inputs s = Some s' →
  run_frames (fuel + extra) inputs s = Some s'.
Proof.
  revert s. induction fuel as [|fuel IH]; intros s; simpl.
  - destruct (pending s) eqn:Hp; [|done]. intros [= <-].
    destruct extra; simpl; by rewrite Hp.
  - destruct (pending s); [done|]. apply IH.
Qed.

Lemma run_frames_is_Some (fuel : nat) (inputs : Inputs) (s : Session) (c : Clock) :
  clock_run fuel inputs (clock s) = Some c →
  ∃ s', run_frames fuel inputs s = Some s' ∧ clock s' = c.
Proof.
  rewrite <- clock_run_spec. destruct (run_frames fuel inputs s) as [s'|]; [|done].
  intros [= <-]. by exists s'.
Qed.

(** ** The oscillator scenario *)

(** The clock of the scenario stops after 102 callbacks: 101 integration
    steps, and the callback that finds [time >= horizon]. *)
Lemma scenario_clock :
  clock_run 102 scenario_inputs (mkClock 0 0 0 true 1)
  = Some (mkClock 5.0499999999999901 101 101 false 0).
Proof. by vm_compute. Qed.

Lemma scenario_run (Math_sin : float → float) (status : option string)
    (has_ctx : bool) (metric0 : float) (extra : nat) :
  ∃ s', run_frames (102 + extra) scenario_inputs
          (runBtn_click (page_load Math_sin status has_ctx metric0)) = Some s'
        ∧ clock s' = mkClock 5.0499999999999901 101 101 false 0.
Proof.
  destruct (run_frames_is_Some 102 scenario_inputs
              (runBtn_click (page_load Math_sin status has_ctx metric0)) _
              scenario_clock) as (s' & Hrun & Hclock).
  exists s'. split; [|done]. by apply run_frames_more.
Qed.

(** C8, as the code has it: for the oscillator with its declared parameter
    values (mass 1.2, stiffness 12, damping 0.6, force 1.8), [dt = 0.05] and
    [horizon = 5], the tick loop started on the freshly loaded page runs to
    completion and stops with [step = 101], [time = 5.0499999999999901]
    and a history of 101 entries, whatever [Math.sin] returns. *)
Theorem oscillator_scenario_101 (Math_sin : float → float)
    (status : option string) (has_ctx : bool) (metric0 : float) (extra : nat) :
  let s0 := page_load Math_sin status has_ctx metric0 in
  getParams s0 = {[ "mass" := 1.2%float; "stiffness" := 12%float;
                    "damping" := 0.6%float; "force" := 1.8%float ]}
  ∧ ∃ s', run_frames (102 + extra) scenario_inputs (runBtn_click s0) = Some s'
          ∧ step s' = 101%float
          ∧ time s' = 5.0499999999999901%float
          ∧ length (history s') = 101
          ∧ running s' = false.
Proof.
  split; [by vm_compute|].
  destruct (scenario_run Math_sin status has_ctx metric0 extra) as (s' & Hrun & Hc).
  exists s'. split; [done|]. by injection Hc as -> -> -> -> _.
Qed.

(** C8 does not hold as stated: a hundred additions of [0.05] reach
    [4.9999999999999902], still below the horizon, so a 101st step runs. *)
Lemma oscillator_scenario_not_100 :
  (Nat.iter 100 (λ t, t + 0.05) 0 = 4.9999999999999902
   ∧ (5 <=? 4.9999999999999902) = false)%float
  ∧ ∀ (Math_sin : float → float) (status : option string) (has_ctx : bool)
      (metric0 : float),
      ∃ s', run_frames 102 scenario_inputs
              (runBtn_click (page_load Math_sin status has_ctx metric0))
            = Some s'
          ∧ (step s' =? 100)%float = false
          ∧ length (history s') ≠ 100.
Proof.
  split; [by vm_compute|]. intros Math_sin status has_ctx metric0.
  destruct (scenario_run Math_sin status has_ctx metric0 0) as (s' & Hrun & Hc).
  exists s'. split; [done|]. injection Hc as _ -> -> _ _. by vm_compute.
Qed.

Lemma predator_idle_selected (Math_sin : float → float) (status : string)
    (metric0 : float) :
  modelSelect_change models.predator
    (page_load Math_sin (Some status) true metric0)
  = predator_idle.
Proof. by vm_compute. Qed.

(** ** Degenerate configurations *)

Lemma frame_not_running (inputs : Inputs) (s : Session) :
  running s = false → frame inputs s = set_pending (Nat.pred (pending s)) s.
Proof.
  intros Hr. unfold frame, tick. destruct (pending s) as [|n] eqn:Hn; simpl.
  - destruct s. simpl in *. by subst.
  - by rewrite Hr.
Qed.

(** On a session that is not running, the pending callbacks run without
    effect. *)
Lemma run_frames_not_running (extra : nat) (inputs : Inputs) (s : Session) :
  running s = false →
  run_frames (pending s + extra) inputs s = Some (set_pending 0 s).
Proof.
  remember (pending s) as n eqn:Hn. revert s Hn.
  induction n as [|n IH]; intros s Hn Hr.
  - assert (set_pending 0 s = s) as -> by (destruct s; simpl in *; by subst).
    destruct extra; simpl; by rewrite <- Hn.
  - cbn [Nat.add run_frames]. rewrite <- Hn.
    rewrite (frame_not_running inputs s Hr), <- Hn. simpl.
    by rewrite (IH (set_pending n s)).
Qed.

(** C2, as the code has it: when the horizon is not above the session's
    time (so for every [horizon <= 0] on a fresh or reset session, whatever
    [dt] is), starting a run executes no integration step.  The first
    callback clears [running], writes the completion message and asks for
    no further callback; the callbacks that were still pending from an
    earlier run then do nothing, and the loop stops with state, time, step
    and history as they were. *)
Theorem run_at_horizon_completes (inputs : Inputs) (s : Session) (extra : nat) :
  running s = false →
  (timeHorizonInput inputs <=? time s)%float = true →
  let first := frame inputs (runBtn_click s) in
  (running first = false ∧ pending first = pending s
   ∧ canvasStatus first = (λ _, complete_message) <$> canvasStatus s)
  ∧ ∃ s', run_frames (S (pending s) + extra) inputs (runBtn_click s) = Some s'
          ∧ running s' = false
          ∧ pending s' = 0
          ∧ canvasStatus s' = (λ _, complete_message) <$> canvasStatus s
          ∧ state s' = state s ∧ time s' = time s ∧ step s' = step s
          ∧ history s' = history s.
Proof.
  intros Hr Hh. cbv zeta.
  assert (frame inputs (runBtn_click s)
          = set_status complete_message
              (set_running false
                 (set_pending (pending s)
                    (set_status running_message (set_running true s)))))
    as Hfirst.
  { unfold runBtn_click. rewrite Hr. unfold frame. simpl.
    unfold tick. simpl. by rewrite Hh. }
  split; [rewrite Hfirst; simpl; by destruct (canvasStatus s)|].
  exists (set_pending 0 (frame inputs (runBtn_click s))). split.
  - change (S (pending s) + extra) with (S (pending s + extra)).
    cbn [run_frames].
    assert (pending (runBtn_click s) = S (pending s)) as ->
      by (unfold runBtn_click; by rewrite Hr).
    assert (pending s = pending (frame inputs (runBtn_click s))) as Hp
      by (by rewrite Hfirst).
    rewrite Hp at 1. apply run_frames_not_running. by rewrite Hfirst.
  - rewrite Hfirst. simpl. repeat split. by destruct (canvasStatus s).
Qed.

(** A session that was reset in the middle of a run: the callback the
    last tick asked for is still pending. *)
Lemma run_at_horizon_completes_witness :
  let s := resetBtn_click (frame scenario_inputs (runBtn_click predator_idle)) in
  let first := frame (mkInputs 0 0) (runBtn_click s) in
  (running first = false ∧ pending first = pending s
   ∧ canvasStatus first = (λ _, complete_message) <$> canvasStatus s)
  ∧ ∃ s', run_frames (S (pending s) + 0) (mkInputs 0 0) (runBtn_click s)
          = Some s'
          ∧ running s' = false
          ∧ pending s' = 0
          ∧ canvasStatus s' = (λ _, complete_message) <$> canvasStatus s
          ∧ state s' = state s ∧ time s' = time s ∧ step s' = step s
          ∧ history s' = history s.
Proof.
  apply (run_at_horizon_completes (mkInputs 0 0)
           (resetBtn_click (frame scenario_inputs (runBtn_click predator_idle)))
           0);
    reflexivity.
Defined.

(** With [dt = 0] and a horizon above the time, every callback steps and
    asks for another one. *)
Lemma clock_spins (horizon : float) (fuel : nat) (c : Clock) :
  (horizon <=? 0)%float = false →
  c_running c = true → c_pending c ≠ 0 → c_time c = 0%float →
  clock_run fuel (mkInputs 0 horizon) c = None.
Proof.
  intros Hh. revert c. induction fuel as [|fuel IH]; intros c Hr Hp Ht; simpl.
  - by destruct (c_pending c).
  - destruct (c_pending c) as [|n] eqn:Hn; [done|]. apply IH.
    all: unfold clock_frame, clock_tick; rewrite Hn; simpl; rewrite Hr, Ht; simpl;
      rewrite Hh; simpl; done.
Qed.

(** C2 does not hold as stated: with [dt = 0] and [horizon = 5] the first
    tick executes an integration step, appends a sample and leaves the
    session running, and the loop never stops; with [dt = -0.05] the first
    tick steps as well, to a negative time. *)
Lemma zero_dt_spins :
  (let s := frame (mkInputs 0 5) (runBtn_click predator_idle) in
   step s = 1%float ∧ length (history s) = 1 ∧ running s = true
   ∧ pending s = 1 ∧ time s = 0%float)
  ∧ (let s := frame (mkInputs (-0.05) 5) (runBtn_click predator_idle) in
     step s = 1%float ∧ length (history s) = 1 ∧ running s = true
     ∧ pending s = 1 ∧ time s = (-0.05)%float)
  ∧ ∀ fuel, run_frames fuel (mkInputs 0 5) (runBtn_click predator_idle) = None.
Proof.
  split; [by vm_compute|]. split; [by vm_compute|]. intros fuel.
  pose proof (clock_run_spec fuel (mkInputs 0 5) (runBtn_click predator_idle)) as H.
  rewrite clock_spins in H by done.
  by destruct (run_frames fuel _ _).
Qed.

(** ** What an executed tick stores *)

Lemma last_history_push (h : list Sample.t) (x : Sample.t) :
  last (history_push h x) = Some x.
Proof.
  unfold history_push. destruct (800 <? length (h ++ [x])) eqn:Hlen.
  - destruct h as [|y h]; simpl in *; [done|]. apply last_snoc.
  - apply last_snoc.
Qed.

(** C6, as the code has it: [tick] has no finiteness test.  On a running
    session whose time is below the horizon it stores the integrator's result
    as the state, appends the projected sample of that state as the newest
    history entry, hands its metric to the display, stays running and asks
    for the next frame, whatever the values are. *)
Theorem tick_appends_unchecked (inputs : Inputs) (s : Session) :
  running s = true →
  (timeHorizonInput inputs <=? time s)%float = false →
  let s' := tick inputs s in
  let m := currentModel s in
  state s' = rk4Step (state s) (getParams s) (time s) (stepSizeInput inputs)
               (Model.derivatives m)
  ∧ time s' = (time s + stepSizeInput inputs)%float
  ∧ step s' = (step s + 1)%float
  ∧ last (history s')
    = Some (Sample.Build (time s') (Model.series m (state s')).1
              (Model.series m (state s')).2)
  ∧ energyMetric s' = Model.metric m (state s') (getParams s)
  ∧ running s' = true
  ∧ pending s' = S (pending s).
Proof.
  intros Hr Hh. unfold tick. rewrite Hr, Hh. simpl.
  destruct (Model.series _ _) as [primary secondary] eqn:Hseries.
  unfold drawPlot. simpl. destruct (ctx s); simpl;
    rewrite Hseries, last_history_push; done.
Qed.

Lemma tick_appends_unchecked_witness :
  let inputs := mkInputs 2 10 in
  let s := runBtn_click predator_idle in
  let s' := tick inputs s in
  let m := currentModel s in
  state s' = rk4Step (state s) (getParams s) (time s) (stepSizeInput inputs)
               (Model.derivatives m)
  ∧ time s' = (time s + stepSizeInput inputs)%float
  ∧ step s' = (step s + 1)%float
  ∧ last (history s')
    = Some (Sample.Build (time s') (Model.series m (state s')).1
              (Model.series m (state s')).2)
  ∧ energyMetric s' = Model.metric m (state s') (getParams s)
  ∧ running s' = true
  ∧ pending s' = S (pending s).
Proof.
  apply (tick_appends_unchecked (mkInputs 2 10) (runBtn_click predator_idle));
    reflexivity.
Defined.

(** C6 does not hold as stated: predator-prey with its declared parameter
    values, [dt = 2] and [horizon = 10].  The fourth step takes the state to
    infinities; they are appended to the history, the metric shown is NaN,
    and the session goes on running; it later completes in the ordinary
    way, with the non-finite samples in the history. *)
Lemma nonfinite_sample_appended :
  (let s := Nat.iter 4 (frame (mkInputs 2 10)) (runBtn_click predator_idle) in
   state s = {[ "prey" := infinity; "predator" := neg_infinity ]}
   ∧ last (history s) = Some (Sample.Build 8 infinity neg_infinity)
   ∧ energyMetric s = nan
   ∧ running s = true
   ∧ canvasStatus s = Some running_message)
  ∧ ∃ s', run_frames 6 (mkInputs 2 10) (runBtn_click predator_idle) = Some s'
          ∧ canvasStatus s' = Some complete_message
          ∧ last (history s') = Some (Sample.Build 10 nan nan)
          ∧ energyMetric s' = nan.
Proof.
  split; [by vm_compute|]. eexists. split; [by vm_compute|]. by vm_compute.
Qed.

(** ** Reset *)

Lemma deepCopy_initial_state (Math_sin : float → float) (v : Variant) :
  deepCopy (Model.state (models_entry Math_sin v))
  = Model.state (models_entry Math_sin v).
Proof. destruct v; by vm_compute. Qed.

(** C7: whatever the session is (idle, running, paused or completed, with
    any state, time, step count, history and pending callbacks), and
    whatever values the parameters of the active variant were given,
    [resetSimulation] yields time 0, step 0, the initial state of the active
    variant, an empty history and a cleared running flag. *)
Theorem resetSimulation_spec (Math_sin : float → float) (v : Variant)
    (ps : list Param.t) (s : Session) :
  let active := Model.set_parameters ps (models_entry Math_sin v) in
  let s' := resetSimulation (set_currentModel active s) in
  time s' = 0%float
  ∧ step s' = 0%float
  ∧ state s' = Model.state (models_entry Math_sin v)
  ∧ history s' = []
  ∧ running s' = false
  ∧ currentModel s' = active.
Proof.
  cbv zeta.
  destruct (resetSimulation_fields
              (set_currentModel
                 (Model.set_parameters ps (models_entry Math_sin v)) s))
    as (-> & -> & -> & -> & -> & -> & _).
  simpl. repeat split. apply deepCopy_initial_state.
Qed.

(** ** Parameter edits *)

Lemma find_assign_value_eq (key : string) (value : float) (ps : list Param.t)
    (p : Param.t) :
  List.find (λ item, String.eqb (Param.key item) key) ps = Some p →
  List.find (λ item, String.eqb (Param.key item) key) (assign_value key value ps)
  = Some (Param.set_value value p).
Proof.
  induction ps as [|q ps IH]; simpl; [done|].
  destruct (String.eqb (Param.key q) key) eqn:Hq; simpl.
  - intros [= ->]. by rewrite Hq.
  - rewrite Hq. apply IH.
Qed.

Lemma find_assign_value_ne (key key' : string) (value : float)
    (ps : list Param.t) :
  key' ≠ key →
  List.find (λ item, String.eqb (Param.key item) key') (assign_value key value ps)
  = List.find (λ item, String.eqb (Param.key item) key') ps.
Proof.
  intros Hne. induction ps as [|q ps IH]; simpl; [done|].
  destruct (String.eqb (Param.key q) key) eqn:Hq; simpl.
  - apply String.eqb_eq in Hq.
    destruct (String.eqb (Param.key q) key') eqn:Hq'; [|done].
    apply String.eqb_eq in Hq'. congruence.
  - destruct (String.eqb (Param.key q) key'); [done|apply IH].
Qed.

(** C4, as the code has it: an edit whose key is not a declared parameter
    of the active variant fails with an error and stores nothing; otherwise
    the value given is stored as it is (the declared bounds are not
    consulted), the bounds and the other parameters stay as they were, and
    the metric is recomputed. *)
Theorem parameter_input_stores (key : string) (value : float) (s : Session) :
  match find_parameter key s with
  | None => parameter_input key value s = None
  | Some p =>
      ∃ s', parameter_input key value s = Some s'
        ∧ find_parameter key s' = Some (Param.set_value value p)
        ∧ (∀ key', key' ≠ key → find_parameter key' s' = find_parameter key' s)
        ∧ energyMetric s'
          = Model.metric (currentModel s) (state s) (getParams s')
        ∧ state s' = state s ∧ time s' = time s ∧ step s' = step s
        ∧ history s' = history s ∧ running s' = running s
  end.
Proof.
  unfold parameter_input, find_parameter.
  destruct (List.find _ _) as [p|] eqn:Hfind; [|done].
  eexists. split; [done|]. simpl. repeat split.
  - by apply find_assign_value_eq.
  - intros key' Hne. by apply find_assign_value_ne.
Qed.

Lemma parameter_input_stores_witness :
  ∃ s', parameter_input "alpha" 100 predator_idle = Some s'
    ∧ find_parameter "alpha" s'
      = Some (Param.Build "alpha" "Prey Growth α" 100 0.1 3 0.05)
    ∧ (∀ key', key' ≠ "alpha" →
         find_parameter key' s' = find_parameter key' predator_idle)
    ∧ energyMetric s'
      = Model.metric models.predator (state predator_idle) (getParams s')
    ∧ state s' = state predator_idle ∧ time s' = time predator_idle
    ∧ step s' = step predator_idle
    ∧ history s' = history predator_idle
    ∧ running s' = running predator_idle.
Proof. exact (parameter_input_stores "alpha" 100 predator_idle). Defined.

(** C4 does not hold as stated: 100 is stored for [alpha], whose declared
    maximum is 3. *)
Lemma edit_not_clamped :
  (s' ← parameter_input "alpha" 100 predator_idle;
   p ← find_parameter "alpha" s';
   Some (Param.value p, Param.max p, (Param.max p <? Param.value p)%float))
  = Some (100%float, 3%float, true).
Proof. by vm_compute. Qed.

(** ** The history buffer *)

Lemma history_resetSimulation (s : Session) : history (resetSimulation s) = [].
Proof. apply resetSimulation_fields. Qed.

Lemma history_push_window (pushed : list Sample.t) (x : Sample.t) :
  history_push (drop (length pushed - 800) pushed) x
  = drop (length (pushed ++ [x]) - 800) (pushed ++ [x]).
Proof.
  unfold history_push. rewrite length_app, length_drop, length_app. simpl.
  destruct (Nat.ltb_spec 800 (length pushed - (length pushed - 800) + 1)) as [H|H].
  - rewrite <- drop_app_le by lia.
    change (tail ?l) with (drop 1 l). rewrite drop_drop. f_equal. lia.
  - rewrite <- drop_app_le by lia. f_equal. lia.
Qed.

(** What a callback does to the history. *)
Lemma history_frame (inputs : Inputs) (s : Session) :
  history (frame inputs s)
  = if executes inputs s
    then history_push (history s) (current_sample (frame inputs s))
    else history s.
Proof.
  unfold frame, executes. destruct (pending s) as [|n]; [done|].
  unfold tick. simpl. destruct (running s); simpl; [|done].
  destruct (_ <=? _)%float; simpl; [done|].
  destruct (Model.series _ (rk4Step _ _ _ _ _))
    as [primary secondary] eqn:Hseries.
  unfold drawPlot, current_sample. simpl.
  destruct (ctx s); simpl; by rewrite Hseries.
Qed.

Lemma history_other_events (s : Session) :
  history (runBtn_click s) = history s
  ∧ history (pauseBtn_click s) = history s
  ∧ ∀ key value, history (default s (parameter_input key value s)) = history s.
Proof.
  split; [unfold runBtn_click; by destruct (running s)|]. split; [done|].
  intros key value. unfold parameter_input. by destruct (find_parameter key s).
Qed.

(** The history is the window of the last 800 samples pushed. *)
Lemma history_pushed_samples (events : list Event) (s : Session)
    (pushed : list Sample.t) :
  history s = drop (length pushed - 800) pushed →
  history (foldl handle s events)
  = drop (length (pushed_samples pushed s events) - 800)
      (pushed_samples pushed s events).
Proof.
  revert s pushed. induction events as [|e events IH]; intros s pushed Hs;
    [done|].
  cbn [foldl pushed_samples]. apply IH.
  destruct (history_other_events s) as (Hrun & Hpause & Hedit).
  destruct e as [inputs| | | |key value|m]; simpl.
  - rewrite history_frame. destruct (executes inputs s); [|done].
    by rewrite Hs, history_push_window.
  - by rewrite Hrun.
  - done.
  - apply history_resetSimulation.
  - by rewrite Hedit.
  - apply history_resetSimulation.
Qed.

(** C5: from the loaded page, after any sequence of callbacks, clicks,
    parameter edits and model selections, the history holds the samples that
    the executed ticks have pushed since the last reset or selection: all of
    them, in the order pushed, while they are at most 800, and exactly the
    800 pushed last once there are more.  Its length never exceeds 800. *)
Theorem history_bounded_fifo (Math_sin : float → float)
    (status : option string) (has_ctx : bool) (metric0 : float)
    (events : list Event) :
  let s0 := page_load Math_sin status has_ctx metric0 in
  let pushed := pushed_samples [] s0 events in
  history (foldl handle s0 events) = drop (length pushed - 800) pushed
  ∧ length (history (foldl handle s0 events)) ≤ 800
  ∧ (800 < length pushed → length (history (foldl handle s0 events)) = 800).
Proof.
  cbv zeta.
  rewrite (history_pushed_samples events
             (page_load Math_sin status has_ctx metric0) []) by done.
  rewrite length_drop. repeat split; lia.
Qed.

(** ** Deltas whose keys are not the state's *)

(** C3, as the code has it: the integrator has no failure path and does
    not compare key sets.  For deltas that are objects of numbers it returns
    an object with the fields of the state, [__proto__] apart: fields that
    only a delta has are left out.  A field of the state that is missing
    from one of the four deltas holds NaN in the result; except that, when
    it is missing from the first delta and goes by a name of
    [Object.prototype], it holds a string: the digits of the state's number
    followed by the text of the inherited property. *)
Theorem rk4Step_missing_field (state : State) (params : Params) (t dt : float)
    (derivativeFn : Js.Obj → Params → float → State) :
  let stateObj := Js.of_numbers state in
  let result :=
    Js.rk4Step stateObj params t dt (Js.number_valued derivativeFn) in
  dom result = dom state ∖ {[Js.proto]}
  ∧ ∀ (key : string) (x : float) (k : Js.Obj),
      state !! key = Some x → key ≠ Js.proto →
      k ∈ Js.rk4_stages stateObj params t dt (Js.number_valued derivativeFn) →
      key ∉ dom k →
      result !! key
      = Some (if Js.inherited key
                 && bool_decide (key ∉ dom (derivativeFn stateObj params t))
              then Js.Str [Js.Digits x] key []
              else Js.Num nan).
Proof.
  cbv zeta.
  destruct (rk4Step_number_valued (Js.of_numbers state) params t dt derivativeFn)
    as (k1 & k2 & k3 & k4 & -> & <- & _ & ->).
  split; [by rewrite dom_addState_obj, dom_of_numbers|].
  intros key x k Hx Hne Hk Hkey.
  rewrite lookup_addState_obj, eqb_proto_ne, lookup_of_numbers, Hx by done.
  simpl. f_equal.
  rewrite get_of_numbers, lookup_rk4_increment by done.
  assert (∃ k', k' ∈ [k1; k2; k3; k4] ∧ k' !! key = None) as (k' & Hk' & Hnone).
  { set_unfold in Hk.
    destruct Hk as [->|[->|[->|[->|[]]]]]; rewrite dom_of_numbers in Hkey;
      apply not_elem_of_dom in Hkey; eexists; (split; [|exact Hkey]);
      set_unfold; auto. }
  assert (field k' key = nan) as Hnan by (unfold field; by rewrite Hnone).
  destruct (k1 !! key) as [y|] eqn:Hy; simpl.
  - rewrite bool_decide_eq_false_2, andb_false_r
      by (intros Hnot; apply Hnot, elem_of_dom; eauto).
    f_equal. set_unfold in Hk'.
    destruct Hk' as [->|[->|[->|[->|[]]]]]; [congruence|..]; rewrite Hnan;
      by rewrite ?NumberFacts.mul_nan_l, ?NumberFacts.add_nan_l,
        ?NumberFacts.add_nan_r, ?NumberFacts.mul_nan_l,
        ?NumberFacts.add_nan_l, ?NumberFacts.add_nan_r,
        ?NumberFacts.mul_nan_l, ?NumberFacts.add_nan_r.
  - rewrite bool_decide_eq_true_2, andb_true_r by (by apply not_elem_of_dom).
    destruct (Js.inherited key); simpl; [done|].
    by rewrite NumberFacts.add_nan_r.
Qed.

Lemma rk4Step_missing_field_witness :
  Js.rk4Step (Js.of_numbers {[ "x" := 1%float; "v" := 0%float ]}) ∅ 0 0.5
    (Js.number_valued delta_without_v) !! "v"
  = Some (Js.Num nan).
Proof.
  apply (proj2 (rk4Step_missing_field {[ "x" := 1%float; "v" := 0%float ]} ∅ 0
                  0.5 delta_without_v)
           "v" 0%float (Js.of_numbers {[ "x" := 1%float ]})).
  - reflexivity.
  - discriminate.
  - left.
  - by vm_compute.
Defined.

(** C3 does not hold as stated: a delta with a missing field and a delta
    with an extra field are both merged, and an object is returned.  The
    missing field [v] becomes NaN; the missing field [toString] becomes a
    string. *)
Lemma mismatched_delta_merged :
  let state : State := {[ "x" := 1%float; "v" := 0%float ]} in
  bool_decide (dom (delta_without_v (Js.of_numbers state) ∅ 0%float)
               = dom state) = false
  ∧ Js.rk4Step (Js.of_numbers state) ∅ 0 0.5 (Js.number_valued delta_without_v)
    = Js.of_numbers {[ "x" := 1.5%float; "v" := nan ]}
  ∧ bool_decide (dom (delta_with_w (Js.of_numbers state) ∅ 0%float)
                 = dom state) = false
  ∧ Js.rk4Step (Js.of_numbers state) ∅ 0 0.5 (Js.number_valued delta_with_w)
    = Js.of_numbers {[ "x" := 1.5%float; "v" := 0.5%float ]}
  ∧ Js.rk4Step (Js.of_numbers state_with_toString) ∅ 0 0.5
      (Js.number_valued delta_without_v)
    = {[ "x" := Js.Num 1.5; "toString" := Js.Str [Js.Digits 0] "toString" [] ]}.
Proof. by vm_compute. Qed.

(** ** Derivatives that are zero everywhere *)









(** ** The store computations and the functions on values agree *)

Section store.
Import Store.
Implicit Types (h : Heap) (a b r : Ref) (o : Js.Obj).

Lemma obj_app_l h h' r : r < length h → obj (h ++ h') r = obj h r.
Proof. intros Hr. unfold obj. by rewrite lookup_app_l. Qed.

Lemma obj_snoc h o : obj (h ++ [o]) (length h) = o.
Proof. unfold obj. by rewrite list_lookup_middle. Qed.

Lemma obj_prefix h h' r : h `prefix_of` h' → r < length h → obj h' r = obj h r.
Proof. intros [k ->]. apply obj_app_l. Qed.

Lemma put_snoc h o key (v : Js.Value) :
  put (length h) key v (h ++ [o]) = (tt, h ++ [Js.set key v o]).
Proof.
  unfold put. f_equal.
  by rewrite alter_app_r_alt, Nat.sub_diag.
Qed.

(** Filling a new object key by key. *)
Lemma lookup_foldl_set (g : string → Js.Value) (ks : list string) o key :
  o !! Js.proto = None →
  foldl (λ o k, Js.set k (g k) o) o ks !! key
  = if String.eqb key Js.proto then None
    else if decide (key ∈ ks) then Some (g key) else o !! key.
Proof.
  intros Ho. destruct (String.eqb_spec key Js.proto) as [Heq|Hne].
  - rewrite Heq. clear Heq. revert o Ho.
    induction ks as [|k ks IH]; intros o Ho; cbn [foldl]; [done|].
    apply IH. by apply set_proto_None.
  - revert o Ho. induction ks as [|k ks IH]; intros o Ho; cbn [foldl].
    + by destruct (decide (key ∈ [])) as [Hin%elem_of_nil|].
    + rewrite IH by (by apply set_proto_None).
      rewrite lookup_set, eqb_proto_ne by done.
      destruct (decide (key ∈ ks)) as [Hin|Hin],
        (decide (key ∈ k :: ks)) as [Hin'|Hin']; try done.
      * exfalso. apply Hin'. by right.
      * apply elem_of_cons in Hin' as [Heq|Hin']; [|done].
        rewrite decide_True by done. by rewrite Heq.
      * rewrite decide_False; [done|]. intros Heq. apply Hin'.
        rewrite Heq. by left.
Qed.

Lemma foldl_set_keys (g : string → Js.Value) o :
  foldl (λ o' k, Js.set k (g k) o') ∅ (map_to_list o).*1
  = map_imap (λ key _, if String.eqb key Js.proto then None
                       else Some (g key)) o.
Proof.
  apply map_eq. intros key.
  rewrite lookup_foldl_set, map_lookup_imap, lookup_empty by done.
  destruct (String.eqb key Js.proto) eqn:Hproto.
  - by destruct (o !! key).
  - destruct (o !! key) as [x|] eqn:Hx; simpl; rewrite ?Hproto.
    + rewrite decide_True; [done|].
      apply list_elem_of_fmap. exists (key, x). split; [done|].
      by apply elem_of_map_to_list.
    + rewrite decide_False; [done|].
      intros ([k x] & -> & Hin%elem_of_map_to_list)%list_elem_of_fmap.
      simpl in Hx. congruence.
Qed.

Lemma forEach_fill (body : string → M unit) (g : string → Js.Value)
    (ks : list string) h o :
  (∀ key o', body key (h ++ [o']) = (tt, h ++ [Js.set key (g key) o'])) →
  forEach ks body (h ++ [o])
  = (tt, h ++ [foldl (λ o' k, Js.set k (g k) o') o ks]).
Proof.
  intros Hbody. revert o. induction ks as [|k ks IH]; intros o; simpl; [done|].
  unfold bind at 1. by rewrite Hbody, IH.
Qed.

Lemma addState_spec a b h :
  a < length h → b < length h →
  Store.addState a b h = (length h, h ++ [Js.addState (obj h a) (obj h b)]).
Proof.
  intros Ha Hb. unfold Store.addState, bind, new_object, keys, ret.
  rewrite (forEach_fill _
             (λ key, Js.add (Js.get (obj h a) key) (Js.get (obj h b) key))).
  - rewrite obj_app_l, foldl_set_keys by done. do 3 f_equal.
    apply map_eq. intros key.
    rewrite lookup_addState_obj, map_lookup_imap. unfold Js.get at 1.
    destruct (obj h a !! key); simpl; by destruct (String.eqb key Js.proto).
  - intros key o'. unfold get. by rewrite put_snoc, !obj_app_l.
Qed.

Lemma scaleState_spec a (c : float) h :
  a < length h →
  Store.scaleState a c h = (length h, h ++ [Js.scaleState (obj h a) c]).
Proof.
  intros Ha. unfold Store.scaleState, bind, new_object, keys, ret.
  rewrite (forEach_fill _ (λ key, Js.Num (Js.mul (Js.get (obj h a) key) c))).
  - rewrite obj_app_l, foldl_set_keys by done. do 3 f_equal.
    apply map_eq. intros key.
    rewrite lookup_scaleState_obj, map_lookup_imap. unfold Js.get.
    destruct (obj h a !! key); simpl; by destruct (String.eqb key Js.proto).
  - intros key o'. unfold get. by rewrite put_snoc, !obj_app_l.
Qed.

Lemma holds_mono h h' r v : h `prefix_of` h' → holds h r v → holds h' r v.
Proof.
  intros Hp [Hr <-]. split; [|by apply obj_prefix].
  apply prefix_length in Hp. lia.
Qed.

Lemma bind_intro (m : M Ref) (k : Ref → M Ref) h v (P : Ref * Heap → Prop) :
  h `prefix_of` (m h).2 ∧ holds (m h).2 (m h).1 v →
  (∀ r h', h `prefix_of` h' → holds h' r v → P (k r h')) →
  P (bind m k h).
Proof.
  unfold bind. destruct (m h) as [r h']. simpl. intros [Hp Hr] Hk. by apply Hk.
Qed.

Lemma scaleState_grows a (c : float) h va :
  holds h a va →
  h `prefix_of` (Store.scaleState a c h).2
  ∧ holds (Store.scaleState a c h).2 (Store.scaleState a c h).1
      (Js.scaleState va c).
Proof.
  intros [Ha <-]. rewrite scaleState_spec by done. simpl. split.
  - by apply prefix_app_r.
  - split; [rewrite length_app; simpl; lia|apply obj_snoc].
Qed.

Lemma addState_grows a b h va vb :
  holds h a va → holds h b vb →
  h `prefix_of` (Store.addState a b h).2
  ∧ holds (Store.addState a b h).2 (Store.addState a b h).1
      (Js.addState va vb).
Proof.
  intros [Ha <-] [Hb <-]. rewrite addState_spec by done. simpl. split.
  - by apply prefix_app_r.
  - split; [rewrite length_app; simpl; lia|apply obj_snoc].
Qed.

Lemma derivative_grows (d : Derivative) s (p : Params) (t : float) h vs :
  allocates_only d → holds h s vs →
  h `prefix_of` (d s p t h).2
  ∧ holds (d s p t h).2 (d s p t h).1 (obj (d s p t h).2 (d s p t h).1).
Proof.
  intros Hd [Hs _]. destruct (Hd s p t h Hs) as [Hp Hr]. by repeat split.
Qed.

Lemma derivative_computes (d : Derivative) (f : Js.Derivative)
    s (p : Params) (t : float) h vs :
  allocates_only d → implements d f → holds h s vs →
  h `prefix_of` (d s p t h).2
  ∧ holds (d s p t h).2 (d s p t h).1 (f vs p t).
Proof.
  intros Hd Hf [Hs <-]. destruct (Hd s p t h Hs) as [Hp Hr].
  repeat split; [done..|]. by apply Hf.
Qed.

Lemma of_function_allocates_only (f : Js.Derivative) :
  allocates_only (of_function f).
Proof.
  intros s p t h Hs. unfold of_function. simpl. split.
  - by apply prefix_app_r.
  - rewrite length_app. simpl. lia.
Qed.

Lemma of_function_implements (f : Js.Derivative) :
  implements (of_function f) f.
Proof. intros s p t h Hs. unfold of_function. simpl. apply obj_snoc. Qed.

(** One call of the chain in [rk4Step]: [rule] accounts for the call, and
    what is known of the older references is carried to the new store. *)
Ltac store_step rule :=
  eapply bind_intro;
  [ rule
  | let r := fresh "r" in
    let h' := fresh "h" in
    let Hp := fresh "Hp" in
    let Hr := fresh "Hr" in
    intros r h' Hp Hr;
    repeat match goal with
           | H : holds ?h0 _ _ |- _ =>
               lazymatch type of Hp with
               | h0 `prefix_of` _ => apply (holds_mono _ _ _ _ Hp) in H
               end
           end;
    match goal with
    | H0 : _ `prefix_of` ?h0 |- _ =>
        lazymatch type of Hp with
        | h0 `prefix_of` _ =>
            pose proof (transitivity H0 Hp); clear H0 Hp
        end
    end ].

Ltac scale_step := store_step ltac:(eapply scaleState_grows; eassumption).
Ltac add_step := store_step ltac:(eapply addState_grows; eassumption).

Lemma rk4Step_store_value (d : Derivative) (f : Js.Derivative)
    (stateObj : Ref) (params : Params) (t dt : float) h :
  allocates_only d → implements d f → stateObj < length h →
  obj (Store.rk4Step stateObj params t dt d h).2
      (Store.rk4Step stateObj params t dt d h).1
  = Js.rk4Step (obj h stateObj) params t dt f.
Proof.
  intros Hd Hf Hs.
  assert (holds h stateObj (obj h stateObj)) as Hst by done.
  assert (h `prefix_of` h) as Hp0 by done.
  unfold Store.rk4Step.
  store_step ltac:(eapply derivative_computes; eassumption).
  scale_step. add_step.
  store_step ltac:(eapply derivative_computes; eassumption).
  scale_step. add_step.
  store_step ltac:(eapply derivative_computes; eassumption).
  scale_step. add_step.
  store_step ltac:(eapply derivative_computes; eassumption).
  scale_step. add_step. scale_step. add_step. add_step. scale_step.
  match goal with
  | Ha : holds ?hc stateObj _, Hb : holds ?hc ?b _
    |- context [Store.addState stateObj ?b ?hc] =>
      destruct (addState_grows _ _ _ _ _ Ha Hb) as [_ [_ ->]]
  end.
  reflexivity.
Qed.

(** [rk4Step] ends with [addState(stateObj, scaled)], called on a store
    that extends the initial one and in which [stateObj] still names the
    object it named. *)
Lemma rk4Step_ends_in_addState (d : Derivative) (stateObj : Ref)
    (params : Params) (t dt : float) h (P : Ref * Heap → Prop) :
  allocates_only d → stateObj < length h →
  (∀ hc scaled v,
     h `prefix_of` hc → holds hc stateObj (obj h stateObj) →
     holds hc scaled v → P (Store.addState stateObj scaled hc)) →
  P (Store.rk4Step stateObj params t dt d h).
Proof.
  intros Hd Hs HP.
  assert (holds h stateObj (obj h stateObj)) as Hst by done.
  assert (h `prefix_of` h) as Hp0 by done.
  unfold Store.rk4Step.
  store_step ltac:(eapply derivative_grows; eassumption).
  scale_step. add_step.
  store_step ltac:(eapply derivative_grows; eassumption).
  scale_step. add_step.
  store_step ltac:(eapply derivative_grows; eassumption).
  scale_step. add_step.
  store_step ltac:(eapply derivative_grows; eassumption).
  scale_step. add_step. scale_step. add_step. add_step. scale_step.
  eapply HP; eassumption.
Qed.

(** C10, as the code has it: [rk4Step], run on any store with any
    derivative function that writes to no object it did not create, returns
    a reference to a new object (one the store did not have before the
    call) whose fields are the fields of the input state, [__proto__]
    apart: a field of that name is not carried over, and a field that only a
    delta has does not appear.  Every object the store had, the input state
    among them, is as it was. *)
Theorem rk4Step_fresh_same_fields (d : Derivative) (stateObj : Ref)
    (params : Params) (t dt : float) h :
  allocates_only d → stateObj < length h →
  let result := (Store.rk4Step stateObj params t dt d h).1 in
  let h' := (Store.rk4Step stateObj params t dt d h).2 in
  length h ≤ result ∧ result < length h'
  ∧ h `prefix_of` h'
  ∧ obj h' stateObj = obj h stateObj
  ∧ dom (obj h' result) = dom (obj h stateObj) ∖ {[Js.proto]}.
Proof.
  intros Hd Hs. cbv zeta.
  pattern (Store.rk4Step stateObj params t dt d h).
  apply rk4Step_ends_in_addState; [done..|].
  intros hc scaled v Hp [Hlt Hobj] [Hscaled _].
  rewrite addState_spec by done. simpl.
  apply prefix_length in Hp as Hlen.
  rewrite obj_snoc, dom_addState_obj, obj_app_l, Hobj, length_app by done.
  simpl. repeat split; [lia..|]. by apply prefix_app_r.
Qed.

Lemma rk4Step_fresh_same_fields_witness :
  let d := of_function
             (λ o p t, Js.of_numbers
                         (Model.derivatives models.predator (Js.numbers o) p t)) in
  let h : Heap := [Js.of_numbers (Model.state models.predator)] in
  let result := (Store.rk4Step 0 ∅ 0 0.05 d h).1 in
  let h' := (Store.rk4Step 0 ∅ 0 0.05 d h).2 in
  length h ≤ result ∧ result < length h'
  ∧ h `prefix_of` h'
  ∧ obj h' 0 = obj h 0
  ∧ dom (obj h' result) = dom (obj h 0) ∖ {[Js.proto]}.
Proof.
  apply (rk4Step_fresh_same_fields
           (of_function
              (λ o p t, Js.of_numbers
                          (Model.derivatives models.predator (Js.numbers o) p t)))
           0 ∅ 0 0.05 [Js.of_numbers (Model.state models.predator)]).
  - apply of_function_allocates_only.
  - simpl. lia.
Defined.

(** C10 does not hold as stated: a field [__proto__] of the input state
    is not a field of the result, even when the delta computed from that
    state has it; the result is a new object, the last one allocated. *)
Lemma proto_field_not_carried :
  let d := of_function (Js.number_valued (constant_derivative 1)) in
  let h : Heap := [Js.of_numbers state_with_proto] in
  let result := (Store.rk4Step 0 ∅ 0 0.5 d h).1 in
  let h' := (Store.rk4Step 0 ∅ 0 0.5 d h).2 in
  obj h 0 = {[ "x" := Js.Num 1; "__proto__" := Js.Num 2 ]}
  ∧ obj h' 1 = {[ "x" := Js.Num 1; "__proto__" := Js.Num 1 ]}
  ∧ result = 17
  ∧ obj h' result = {[ "x" := Js.Num 1.5 ]}.
Proof. by vm_compute. Qed.
End store.

(** * Part III: further properties of the engine *)

(** ** Sums of states *)

Lemma float_add_comm (x y : float) : (x + y = y + x)%float.
Proof.
  apply Prim2SF_inj. rewrite !add_spec.
  destruct (Prim2SF x) as [[]|[]| |sx mx ex], (Prim2SF y) as [[]|[]| |sy my ey];
    try reflexivity.
  cbn. by rewrite (Z.min_comm ex ey), Z.add_comm.
Qed.

(** X1: [addState(a, b)] reads [b] at the keys of [a] only: two second
    arguments that agree on those keys give the same result, whose keys are
    the keys of [a], [__proto__] apart. *)
Theorem addState_reads_keys_of_first (a b b' : Js.Obj) :
  (∀ key, key ∈ dom a → b !! key = b' !! key) →
  Js.addState a b = Js.addState a b'
  ∧ dom (Js.addState a b) = dom a ∖ {[Js.proto]}.
Proof.
  intros Hagree. split; [|apply dom_addState_obj].
  apply map_eq. intros key. rewrite !lookup_addState_obj.
  destruct (String.eqb key Js.proto); [done|].
  destruct (a !! key) as [x|] eqn:Hx; simpl; [|done].
  unfold Js.get. rewrite (Hagree key); [done|]. apply elem_of_dom. eauto.
Qed.

Lemma addState_reads_keys_of_first_witness :
  Js.addState (Js.of_numbers state_with_toString)
    (Js.of_numbers {[ "x" := 2%float; "w" := 5%float ]})
  = Js.addState (Js.of_numbers state_with_toString)
      (Js.of_numbers {[ "x" := 2%float ]})
  ∧ dom (Js.addState (Js.of_numbers state_with_toString)
           (Js.of_numbers {[ "x" := 2%float; "w" := 5%float ]}))
    = dom (Js.of_numbers state_with_toString) ∖ {[Js.proto]}.
Proof.
  apply (addState_reads_keys_of_first (Js.of_numbers state_with_toString)
           (Js.of_numbers {[ "x" := 2%float; "w" := 5%float ]})
           (Js.of_numbers {[ "x" := 2%float ]})).
  intros key Hkey. unfold state_with_toString in Hkey.
  rewrite dom_of_numbers, dom_insert_L, dom_singleton_L in Hkey.
  apply elem_of_union in Hkey as [Hkey|Hkey];
    apply elem_of_singleton in Hkey; rewrite Hkey; reflexivity.
Defined.

(** X2: on two objects with the same keys [addState] is commutative. *)
Theorem addState_comm (a b : State) :
  dom a = dom b → addState a b = addState b a.
Proof.
  intros Hdom. apply map_eq. intros key. rewrite !lookup_addState.
  destruct (String.eqb key Js.proto); [done|].
  assert (is_Some (a !! key) ↔ is_Some (b !! key)) as Hiff
    by (by rewrite <- !elem_of_dom, Hdom).
  unfold field.
  destruct (a !! key) as [x|] eqn:Ha, (b !! key) as [y|] eqn:Hb; simpl.
  - by rewrite float_add_comm.
  - destruct Hiff as [Hiff _]. by destruct Hiff.
  - destruct Hiff as [_ Hiff]. by destruct Hiff.
  - done.
Qed.

Lemma addState_comm_witness :
  addState {[ "x" := 1%float; "v" := 0.1%float ]}
    {[ "x" := 0.2%float; "v" := 3%float ]}
  = addState {[ "x" := 0.2%float; "v" := 3%float ]}
      {[ "x" := 1%float; "v" := 0.1%float ]}.
Proof.
  apply (addState_comm {[ "x" := 1%float; "v" := 0.1%float ]}
           {[ "x" := 0.2%float; "v" := 3%float ]}).
  by vm_compute.
Defined.

(** ** The parameter snapshot *)

Lemma find_snoc {A : Type} (f : A → bool) (l : list A) (x : A) :
  List.find f (l ++ [x])
  = match List.find f l with
    | Some y => Some y
    | None => if f x then Some x else None
    end.
Proof.
  induction l as [|y l IH]; simpl; [done|]. by destruct (f y).
Qed.

Lemma lookup_foldl_parameters (key : string) (ps : list Param.t)
    (params : Params) :
  params !! Js.proto = None →
  foldl (λ params param, Js.set (Param.key param) (Param.value param) params)
    params ps !! key
  = if String.eqb key Js.proto then None
    else match List.find (λ item, String.eqb (Param.key item) key) (rev ps) with
         | Some p => Some (Param.value p)
         | None => params !! key
         end.
Proof.
  revert params. induction ps as [|p ps IH]; intros params Hparams; simpl.
  - destruct (String.eqb_spec key Js.proto) as [Heq|Hne]; [|done].
    by rewrite Heq.
  - rewrite IH, find_snoc by (by apply set_proto_None).
    destruct (String.eqb key Js.proto) eqn:Hproto; [done|].
    destruct (List.find _ (rev ps)); [done|].
    rewrite lookup_set, Hproto by done.
    destruct (String.eqb_spec (Param.key p) key) as [Heq|Hne].
    + by rewrite decide_True.
    + by rewrite decide_False.
Qed.

(** X3: the snapshot [getParams] holds, for each key, the value of the
    last parameter declared with that key (a later duplicate overrides an
    earlier one), and nothing for a key that no parameter has; it never has
    a field [__proto__], whatever is declared. *)
Theorem getParams_lookup (key : string) (s : Session) :
  getParams s !! key
  = if String.eqb key Js.proto then None
    else Param.value
         <$> List.find (λ item, String.eqb (Param.key item) key)
               (rev (Model.parameters (currentModel s))).
Proof.
  unfold getParams. rewrite lookup_foldl_parameters, lookup_empty by done.
  destruct (String.eqb key Js.proto); [done|]. by destruct (List.find _ _).
Qed.

Lemma find_key_unique (key : string) (ps : list Param.t) (p q : Param.t) :
  NoDup (Param.key <$> ps) →
  p ∈ ps → q ∈ ps → Param.key p = key → Param.key q = key → p = q.
Proof.
  intros Hnodup [i Hi]%list_elem_of_lookup [j Hj]%list_elem_of_lookup Hp Hq.
  assert (i = j) as ->; [|congruence].
  apply (NoDup_lookup (Param.key <$> ps) i j key); [done|..];
    rewrite list_lookup_fmap; [rewrite Hi|rewrite Hj]; simpl; congruence.
Qed.

Lemma find_rev_NoDup (key : string) (ps : list Param.t) :
  NoDup (Param.key <$> ps) →
  List.find (λ item, String.eqb (Param.key item) key) (rev ps)
  = List.find (λ item, String.eqb (Param.key item) key) ps.
Proof.
  intros Hnodup.
  destruct (List.find _ (rev ps)) as [p|] eqn:Hp,
    (List.find _ ps) as [q|] eqn:Hq; [| | |done].
  - apply find_some in Hp as [Hp Hpk], Hq as [Hq Hqk].
    apply String.eqb_eq in Hpk, Hqk.
    apply in_rev, list_elem_of_In in Hp. apply list_elem_of_In in Hq.
    f_equal. by eapply find_key_unique.
  - apply find_some in Hp as [Hp Hpk]. apply in_rev in Hp.
    by rewrite (find_none _ _ Hq p Hp) in Hpk.
  - apply find_some in Hq as [Hq Hqk]. apply in_rev in Hq.
    by rewrite (find_none _ _ Hp q Hq) in Hqk.
Qed.

Lemma declared_keys_assign_value (key : string) (value : float)
    (ps : list Param.t) :
  Param.key <$> assign_value key value ps = Param.key <$> ps.
Proof.
  induction ps as [|p ps IH]; [done|]. cbn [assign_value].
  destruct (String.eqb (Param.key p) key); rewrite !fmap_cons; [done|].
  by rewrite IH.
Qed.

Lemma parameter_input_find (key : string) (value : float) (s : Session) :
  match parameter_input key value s with
  | Some s' =>
      ∃ p, find_parameter key s = Some p
        ∧ find_parameter key s' = Some (Param.set_value value p)
        ∧ (∀ key', key' ≠ key → find_parameter key' s' = find_parameter key' s)
        ∧ Param.key <$> Model.parameters (currentModel s')
          = Param.key <$> Model.parameters (currentModel s)
  | None => find_parameter key s = None
  end.
Proof.
  unfold parameter_input, find_parameter.
  destruct (List.find _ _) as [p|] eqn:Hfind; [|done].
  exists p. simpl. repeat split.
  - by apply find_assign_value_eq.
  - intros key' Hne. by apply find_assign_value_ne.
  - apply declared_keys_assign_value.
Qed.

Lemma getParams_find (key : string) (s : Session) :
  NoDup (declared_keys s) →
  getParams s !! key
  = if String.eqb key Js.proto then None
    else Param.value <$> find_parameter key s.
Proof.
  intros Hnodup. unfold getParams, find_parameter.
  rewrite lookup_foldl_parameters, lookup_empty, find_rev_NoDup by done.
  destruct (String.eqb key Js.proto); [done|]. by destruct (List.find _ _).
Qed.

Lemma getParams_proto (s : Session) : getParams s !! Js.proto = None.
Proof.
  unfold getParams. by rewrite lookup_foldl_parameters, lookup_empty.
Qed.

(** ** The metric on display *)

Lemma getParams_frame_conditions (s : Session) :
  getParams (updateMetric s) = getParams s
  ∧ getParams (drawPlot s) = getParams s
  ∧ (∀ msg, getParams (set_status msg s) = getParams s)
  ∧ (∀ b, getParams (set_running b s) = getParams s)
  ∧ (∀ n, getParams (set_pending n s) = getParams s).
Proof. unfold drawPlot. by destruct (ctx s). Qed.

Lemma metric_in_sync_updateMetric (s : Session) :
  metric_in_sync (drawPlot (updateMetric s)).
Proof. unfold metric_in_sync, drawPlot. simpl. by destruct (ctx s). Qed.

Lemma metric_in_sync_handle (s : Session) (e : Event) :
  metric_in_sync s → metric_in_sync (handle s e).
Proof.
  intros Hs. destruct e as [inputs| | | |key value|m]; simpl.
  - unfold frame. destruct (pending s) as [|n]; [done|].
    unfold tick. simpl. destruct (running s); simpl; [|done].
    destruct (_ <=? _)%float; [done|].
    destruct (Model.series _ _) as [primary secondary].
    unfold metric_in_sync, drawPlot. simpl. by destruct (ctx s).
  - unfold runBtn_click. by destruct (running s).
  - done.
  - apply metric_in_sync_updateMetric.
  - unfold parameter_input. by destruct (find_parameter key s).
  - apply metric_in_sync_updateMetric.
Qed.

(** X4: from a reset on, whatever callbacks, clicks, parameter edits and
    model selections follow, the metric on display is the metric of the
    current state under the current parameter values. *)
Theorem metric_in_sync_after_reset (s : Session) (events : list Event) :
  metric_in_sync (foldl handle (resetSimulation s) events).
Proof.
  assert (metric_in_sync (resetSimulation s)) as Hs
    by apply metric_in_sync_updateMetric.
  revert Hs. generalize (resetSimulation s).
  induction events as [|e events IH]; intros s0 Hs0; simpl; [done|].
  by apply IH, metric_in_sync_handle.
Qed.

(** ** Run, pause and the pending callbacks *)

(** X5: clicking Run on a running session changes nothing, so a second
    click starts no second chain of ticks. *)
Theorem runBtn_click_idempotent (s : Session) :
  runBtn_click (runBtn_click s) = runBtn_click s
  ∧ pending (runBtn_click (runBtn_click s))
    = if running s then pending s else S (pending s).
Proof.
  unfold runBtn_click. destruct (running s) eqn:Hr; simpl.
  - by rewrite Hr.
  - done.
Qed.

(** X6: a callback never multiplies: when it executes a step it asks for
    exactly one successor, and otherwise (the session is not running, or the
    horizon is reached) it asks for none. *)
Theorem frame_pending (inputs : Inputs) (s : Session) :
  pending (frame inputs s)
  = if running s && negb (timeHorizonInput inputs <=? time s)%float
    then pending s
    else Nat.pred (pending s).
Proof.
  pose proof (clock_frame_spec inputs s) as Hc.
  apply (f_equal c_pending) in Hc. simpl in Hc. rewrite Hc.
  unfold clock_frame, clock_tick, clock. cbn [c_pending c_running c_time].
  destruct (pending s) as [|n]; cbn [c_pending c_running c_time];
    by destruct (running s), (timeHorizonInput inputs <=? time s)%float.
Qed.

(** X7: after Pause, the callbacks that were still pending run without
    effect: the loop stops, and state, time, step, history and metric are
    those at the moment of the pause. *)
Theorem pause_preserves (extra : nat) (inputs : Inputs) (s : Session) :
  ∃ s', run_frames (pending s + extra) inputs (pauseBtn_click s) = Some s'
    ∧ state s' = state s ∧ time s' = time s ∧ step s' = step s
    ∧ history s' = history s ∧ energyMetric s' = energyMetric s
    ∧ currentModel s' = currentModel s
    ∧ running s' = false ∧ pending s' = 0.
Proof.
  eexists. split.
  - by apply (run_frames_not_running extra inputs (pauseBtn_click s)).
  - by repeat split.
Qed.

(** X8: Pause followed by Run resumes where the run stood: the next
    callback computes the same state, time, step, history and metric as it
    would have without the two clicks.  The callback that was pending at the
    pause is still pending, so one more callback is queued than before. *)
Theorem pause_resume_continues (inputs : Inputs) (s : Session) :
  running s = true → pending s ≠ 0 →
  let resumed := runBtn_click (pauseBtn_click s) in
  state (frame inputs resumed) = state (frame inputs s)
  ∧ time (frame inputs resumed) = time (frame inputs s)
  ∧ step (frame inputs resumed) = step (frame inputs s)
  ∧ history (frame inputs resumed) = history (frame inputs s)
  ∧ energyMetric (frame inputs resumed) = energyMetric (frame inputs s)
  ∧ running (frame inputs resumed) = running (frame inputs s)
  ∧ pending resumed = S (pending s)
  ∧ pending (frame inputs resumed) = S (pending (frame inputs s)).
Proof.
  intros Hr Hp. cbv zeta. unfold runBtn_click, pauseBtn_click. simpl.
  unfold frame. simpl. destruct (pending s) as [|n]; [done|].
  unfold tick. simpl. rewrite Hr. simpl.
  destruct (_ <=? _)%float; [done|].
  destruct (Model.series _ _) as [primary secondary].
  unfold drawPlot. simpl. by destruct (ctx s).
Qed.

Lemma pause_resume_continues_witness :
  let inputs := mkInputs 0.05 5 in
  let s := runBtn_click predator_idle in
  let resumed := runBtn_click (pauseBtn_click s) in
  state (frame inputs resumed) = state (frame inputs s)
  ∧ time (frame inputs resumed) = time (frame inputs s)
  ∧ step (frame inputs resumed) = step (frame inputs s)
  ∧ history (frame inputs resumed) = history (frame inputs s)
  ∧ energyMetric (frame inputs resumed) = energyMetric (frame inputs s)
  ∧ running (frame inputs resumed) = running (frame inputs s)
  ∧ pending resumed = S (pending s)
  ∧ pending (frame inputs resumed) = S (pending (frame inputs s)).
Proof.
  apply (pause_resume_continues (mkInputs 0.05 5) (runBtn_click predator_idle)).
  - reflexivity.
  - simpl. lia.
Defined.

(** ** When the tick loop stops *)

(** X9: how many callbacks run, how many steps they take and where the
    time ends depend on the time, the step counter, the history length, the
    running flag, the pending callbacks and the two inputs only: not on the
    model, the state or the parameter values. *)
Theorem run_independent_of_model (fuel : nat) (inputs : Inputs)
    (s1 s2 : Session) :
  clock s1 = clock s2 →
  clock <$> run_frames fuel inputs s1 = clock <$> run_frames fuel inputs s2.
Proof. intros Hc. by rewrite !clock_run_spec, Hc. Qed.

Lemma run_independent_of_model_witness :
  clock <$> run_frames 200 scenario_inputs (runBtn_click predator_idle)
  = clock <$> run_frames 200 scenario_inputs
      (set_currentModel (Model.set_parameters [] models.predator)
         (runBtn_click predator_idle)).
Proof.
  apply (run_independent_of_model 200 scenario_inputs
           (runBtn_click predator_idle)
           (set_currentModel (Model.set_parameters [] models.predator)
              (runBtn_click predator_idle))).
  reflexivity.
Defined.

Lemma time_after_S (n : nat) (dt t : float) :
  time_after (S n) dt t = time_after n dt (t + dt)%float.
Proof. unfold time_after. by rewrite Nat.iter_succ_r. Qed.

Lemma length_after_S (n len : nat) :
  length_after (S n) len
  = length_after n (let m := S len in if 800 <? m then Nat.pred m else m).
Proof. unfold length_after. by rewrite Nat.iter_succ_r. Qed.

Lemma length_after_min (n len : nat) :
  len ≤ 800 → length_after n len = Nat.min 800 (len + n).
Proof.
  revert len. induction n as [|n IH]; intros len Hlen.
  - change (len = Nat.min 800 (len + 0)). lia.
  - rewrite length_after_S. cbv zeta. change (Nat.pred (S len)) with len.
    destruct (Nat.ltb_spec 800 (S len)); rewrite IH; lia.
Qed.

Lemma clock_run_reaches (n extra : nat) (inputs : Inputs) (c : Clock) :
  c_running c = true → c_pending c = 1 →
  (∀ k, k < n →
     (timeHorizonInput inputs
      <=? time_after k (stepSizeInput inputs) (c_time c))%float = false) →
  (timeHorizonInput inputs
   <=? time_after n (stepSizeInput inputs) (c_time c))%float = true →
  clock_run (S n + extra) inputs c
  = Some (mkClock (time_after n (stepSizeInput inputs) (c_time c))
            (time_after n 1 (c_step c)) (length_after n (c_length c))
            false 0).
Proof.
  revert c. induction n as [|n IH]; intros c Hr Hp Hbelow Hreach.
  - cbn [Nat.add clock_run]. rewrite Hp. unfold clock_frame. rewrite Hp.
    unfold clock_tick. cbn [c_running c_time c_step c_length c_pending].
    rewrite Hr. simpl. unfold time_after in Hreach. simpl in Hreach.
    rewrite Hreach. by destruct extra.
  - change (S (S n) + extra) with (S (S n + extra)).
    cbn [clock_run]. rewrite Hp. unfold clock_frame at 1. rewrite Hp.
    unfold clock_tick. cbn [c_running c_time c_step c_length c_pending].
    rewrite Hr. simpl negb. cbv iota.
    pose proof (Hbelow 0 (Nat.lt_0_succ n)) as H0.
    unfold time_after in H0. simpl in H0. rewrite H0.
    rewrite IH; cbn [c_running c_time c_step c_length c_pending]; [|done..| |].
    + by rewrite !time_after_S, length_after_S.
    + intros k Hk. rewrite <- time_after_S. apply Hbelow. lia.
    + by rewrite <- time_after_S.
Qed.

(** X10: a run stops at the first partial sum of the step size that
    reaches the horizon.  If the time after [n] additions of [dt] is the
    first one with [time >= horizon], a running session with one pending
    callback completes after exactly [n] integration steps and one more
    callback: the time is that sum, the step counter went up [n] times,
    the history grew by [n] entries up to its capacity, the session is no
    longer running and nothing is pending. *)
Theorem run_stops_at_first_reach (n extra : nat) (inputs : Inputs)
    (s : Session) :
  running s = true → pending s = 1 →
  (∀ k, k < n →
     (timeHorizonInput inputs
      <=? time_after k (stepSizeInput inputs) (time s))%float = false) →
  (timeHorizonInput inputs
   <=? time_after n (stepSizeInput inputs) (time s))%float = true →
  ∃ s', run_frames (S n + extra) inputs s = Some s'
    ∧ time s' = time_after n (stepSizeInput inputs) (time s)
    ∧ step s' = time_after n 1 (step s)
    ∧ length (history s') = length_after n (length (history s))
    ∧ (length (history s) ≤ 800 →
       length (history s') = Nat.min 800 (length (history s) + n))
    ∧ running s' = false ∧ pending s' = 0.
Proof.
  intros Hr Hp Hbelow Hreach.
  destruct (run_frames_is_Some (S n + extra) inputs s _
              (clock_run_reaches n extra inputs (clock s) Hr Hp Hbelow Hreach))
    as (s' & Hrun & Hclock).
  exists s'. split; [done|].
  injection Hclock as -> -> -> -> ->. repeat split.
  intros Hlen. by apply length_after_min.
Qed.

Lemma run_stops_at_first_reach_witness :
  ∃ s', run_frames 6 (mkInputs 2 10) (runBtn_click predator_idle) = Some s'
    ∧ time s' = time_after 5 2 0
    ∧ step s' = time_after 5 1 0
    ∧ length (history s') = length_after 5 0
    ∧ (0 ≤ 800 → length (history s') = Nat.min 800 (0 + 5))
    ∧ running s' = false ∧ pending s' = 0.
Proof.
  apply (run_stops_at_first_reach 5 0 (mkInputs 2 10)
           (runBtn_click predator_idle)).
  - reflexivity.
  - reflexivity.
  - intros k Hk. do 5 (destruct k as [|k]; [reflexivity|]). lia.
  - reflexivity.
Defined.

Lemma clock_absorbed (fuel : nat) (inputs : Inputs) (c : Clock) :
  c_running c = true → c_pending c ≠ 0 →
  (timeHorizonInput inputs <=? c_time c)%float = false →
  (c_time c + stepSizeInput inputs)%float = c_time c →
  clock_run fuel inputs c = None.
Proof.
  revert c. induction fuel as [|fuel IH]; intros c Hr Hp Hh Habs; simpl.
  - by destruct (c_pending c).
  - destruct (c_pending c) as [|n] eqn:Hn; [done|]. apply IH.
    all: unfold clock_frame, clock_tick; rewrite Hn; simpl; rewrite Hr; simpl;
      rewrite Hh; simpl; rewrite ?Habs; done.
Qed.

(** X11: when adding the step size does not change the time (a zero step,
    or one too small for the time's precision) and the time is below the
    horizon, a running session with a pending callback never completes:
    every callback steps and asks for another. *)
Theorem absorbed_step_never_completes (fuel : nat) (inputs : Inputs)
    (s : Session) :
  running s = true → pending s ≠ 0 →
  (timeHorizonInput inputs <=? time s)%float = false →
  (time s + stepSizeInput inputs)%float = time s →
  run_frames fuel inputs s = None.
Proof.
  intros Hr Hp Hh Habs.
  pose proof (clock_run_spec fuel inputs s) as H.
  rewrite clock_absorbed in H by done.
  by destruct (run_frames fuel inputs s).
Qed.

Lemma absorbed_step_never_completes_witness :
  run_frames 1000 (mkInputs 1e-17 5) predator_at_one = None.
Proof.
  apply (absorbed_step_never_completes 1000 (mkInputs 1e-17 5) predator_at_one).
  - reflexivity.
  - simpl. lia.
  - reflexivity.
  - reflexivity.
Defined.

(** ** The fields of the state *)

Lemma dom_deepCopy (o : State) : dom (deepCopy o) = dom o.
Proof. unfold deepCopy. by rewrite dom_fmap_L. Qed.

Lemma keys_kept_resetSimulation (s : Session) :
  keys_kept (resetSimulation s).
Proof.
  unfold keys_kept.
  destruct (resetSimulation_fields s) as (_ & _ & -> & _ & _ & -> & _).
  rewrite dom_deepCopy. split; [done|]. by apply subseteq_difference_l.
Qed.

Lemma keys_kept_handle (s : Session) (e : Event) :
  keys_kept s → keys_kept (handle s e).
Proof.
  unfold keys_kept. intros [Hsub Hsup].
  destruct e as [inputs| | | |key value|m]; simpl.
  - unfold frame. destruct (pending s) as [|n]; [done|].
    unfold tick. simpl. destruct (running s); simpl; [|done].
    destruct (_ <=? _)%float; [done|].
    destruct (Model.series _ _) as [primary secondary].
    unfold drawPlot. simpl. destruct (ctx s); simpl; rewrite dom_rk4Step.
    all: split;
      [ by etransitivity; [apply subseteq_difference_l|exact Hsub]
      | intros key Hkey; apply elem_of_difference;
        split; [by apply Hsup|by apply elem_of_difference in Hkey as [_ Hkey]] ].
  - unfold runBtn_click. by destruct (running s).
  - done.
  - apply keys_kept_resetSimulation.
  - unfold parameter_input. by destruct (find_parameter key s).
  - apply keys_kept_resetSimulation.
Qed.

Lemma keys_kept_reachable (Math_sin : float → float) (status : option string)
    (has_ctx : bool) (metric0 : float) (events : list Event) :
  keys_kept (foldl handle (page_load Math_sin status has_ctx metric0) events).
Proof.
  assert (keys_kept (page_load Math_sin status has_ctx metric0)) as Hs.
  { split; [done|]. by apply subseteq_difference_l. }
  revert Hs. generalize (page_load Math_sin status has_ctx metric0).
  induction events as [|e events IH]; intros s Hs; simpl; [done|].
  by apply IH, keys_kept_handle.
Qed.

Lemma keys_kept_match (s : Session) :
  keys_kept s → Js.proto ∉ dom (Model.state (currentModel s)) → keys_match s.
Proof.
  unfold keys_kept, keys_match. intros [Hsub Hsup] Hproto.
  apply set_eq. intros key. split; [apply Hsub|].
  intros Hkey. apply Hsup, elem_of_difference. split; [done|].
  apply not_elem_of_singleton. by intros ->.
Qed.

(** X12: from the loaded page, after any sequence of callbacks, clicks,
    parameter edits and model selections, the state has exactly the fields
    of the active model's initial state, provided that initial state has no
    field [__proto__] (no state of the table has one): a tick neither adds
    nor drops a field, and a selection leaves no field of the previous
    model behind. *)
Theorem keys_match_invariant (Math_sin : float → float)
    (status : option string) (has_ctx : bool) (metric0 : float)
    (events : list Event) :
  let s := foldl handle (page_load Math_sin status has_ctx metric0) events in
  Js.proto ∉ dom (Model.state (currentModel s)) → keys_match s.
Proof.
  cbv zeta. intros Hproto.
  by apply keys_kept_match; [apply keys_kept_reachable|].
Qed.

Lemma keys_match_invariant_witness :
  keys_match
    (foldl handle (page_load (λ _, 0%float) None true 0)
       [ModelSelect models.predator; RunClick; AnimationFrame scenario_inputs]).
Proof.
  apply (keys_match_invariant (λ _, 0%float) None true 0
           [ModelSelect models.predator; RunClick;
            AnimationFrame scenario_inputs]).
  apply not_elem_of_dom. reflexivity.
Defined.

(** Each model of the table returns a delta with the fields of its own
    state, whatever it is given. *)
Lemma models_derivatives_dom (Math_sin : float → float) (v : Variant)
    (state : State) (params : Params) (t : float) :
  dom (Model.derivatives (models_entry Math_sin v) state params t)
  = dom (Model.state (models_entry Math_sin v)).
Proof. destruct v; simpl; by rewrite !dom_insert_L. Qed.

(** ** What happens to the history *)

Lemma history_push_app (h : list Sample.t) (x : Sample.t) :
  history_push h x = drop (if 800 <? S (length h) then 1 else 0) h ++ [x].
Proof.
  unfold history_push. rewrite length_app, Nat.add_1_r.
  destruct (800 <? S (length h)) eqn:Hlen; [|done].
  destruct h as [|y h]; [done|]. done.
Qed.

(** X13: only a reset or a model selection clears the history; clicks on
    Run and Pause and parameter edits leave it as it is; a callback leaves
    it as it is or appends one sample, dropping the oldest one when the
    history would exceed 800 entries.  Samples already in the history are
    never changed or reordered. *)
Theorem history_handle (s : Session) (e : Event) :
  match e with
  | ResetClick | ModelSelect _ => history (handle s e) = []
  | RunClick | PauseClick | ParameterInput _ _ =>
      history (handle s e) = history s
  | AnimationFrame _ =>
      history (handle s e) = history s
      ∨ ∃ entry,
          history (handle s e)
          = drop (if 800 <? S (length (history s)) then 1 else 0) (history s)
            ++ [entry]
  end.
Proof.
  destruct e as [inputs| | | |key value|m]; simpl.
  - unfold frame. destruct (pending s) as [|n]; [by left|].
    unfold tick. simpl. destruct (running s); simpl; [|by left].
    destruct (_ <=? _)%float; [by left|].
    destruct (Model.series _ _) as [primary secondary]. right.
    exists (Sample.Build (time s + stepSizeInput inputs) primary secondary).
    unfold drawPlot. simpl. destruct (ctx s); simpl; apply history_push_app.
  - unfold runBtn_click. by destruct (running s).
  - done.
  - apply history_resetSimulation.
  - unfold parameter_input. by destruct (find_parameter key s).
  - apply history_resetSimulation.
Qed.

(** ** The plot *)

Section plot_arithmetic.
Import Math.

Lemma isNaN_nan (x : float) : isNaN x = true → x = nan.
Proof.
  unfold isNaN. intros Hx. apply Prim2SF_inj.
  rewrite NumberFacts.nan_spec. by destruct (Prim2SF x).
Qed.

Lemma float_sub_nan_r (x : float) : (x - nan = nan)%float.
Proof.
  apply Prim2SF_inj.
  rewrite FloatAxioms.sub_spec, NumberFacts.nan_spec. by destruct (Prim2SF x).
Qed.

Lemma float_sub_nan_l (x : float) : (nan - x = nan)%float.
Proof.
  apply Prim2SF_inj.
  by rewrite FloatAxioms.sub_spec, NumberFacts.nan_spec.
Qed.

Lemma float_div_nan_l (x : float) : (nan / x = nan)%float.
Proof.
  apply Prim2SF_inj.
  by rewrite FloatAxioms.div_spec, NumberFacts.nan_spec.
Qed.

Lemma float_ltb_irrefl (x : float) : (x <? x)%float = false.
Proof.
  rewrite ltb_spec. unfold SFltb.
  destruct (Prim2SF x) as [s|[]| |[] m e]; simpl; try done.
  all: by rewrite Z.compare_refl, Pos.compare_cont_refl.
Qed.

Lemma float_ltb_infinity (x : float) :
  Number.isFinite x = true → (x <? infinity)%float = true.
Proof.
  unfold Number.isFinite. rewrite ltb_spec.
  change (Prim2SF infinity) with (S754_infinity false).
  by destruct (Prim2SF x).
Qed.

Lemma float_ltb_neg_infinity (x : float) :
  Number.isFinite x = true → (neg_infinity <? x)%float = true.
Proof.
  unfold Number.isFinite. rewrite ltb_spec.
  change (Prim2SF neg_infinity) with (S754_infinity true).
  by destruct (Prim2SF x).
Qed.

(** A finite number minus itself is [+0]. *)
Lemma float_sub_diag (x : float) :
  Number.isFinite x = true → (x - x)%float = 0%float.
Proof.
  unfold Number.isFinite. intros Hx. apply Prim2SF_inj.
  rewrite FloatAxioms.sub_spec. change (Prim2SF 0) with (S754_zero false).
  destruct (Prim2SF x) as [[]| | |s m e]; try done.
  cbn. by rewrite Z.sub_diag.
Qed.

Lemma float_sub_isZero (x z : float) :
  Number.isZero z = true →
  (x - z)%float = x
  ∨ (Number.isZero x = true ∧ Number.isZero (x - z) = true).
Proof.
  unfold Number.isZero. intros Hz.
  destruct (Prim2SF x) as [sx|sx| |sx mx ex] eqn:Hx,
    (Prim2SF z) as [sz| | |] eqn:Hz'; try done.
  - right. split; [done|].
    rewrite FloatAxioms.sub_spec, Hx, Hz'. by destruct sx, sz.
  - left. apply Prim2SF_inj. by rewrite FloatAxioms.sub_spec, Hx, Hz'.
  - left. apply Prim2SF_inj. by rewrite FloatAxioms.sub_spec, Hx, Hz'.
  - left. apply Prim2SF_inj. by rewrite FloatAxioms.sub_spec, Hx, Hz'.
Qed.

(** Subtracting a non-zero finite number from a zero does not depend on
    the sign of the zero. *)
Lemma float_zero_sub (z z' c : float) :
  Number.isZero z = true → Number.isZero z' = true →
  Number.isFinite c = true → Number.isZero c = false →
  (z - c)%float = (z' - c)%float.
Proof.
  unfold Number.isZero, Number.isFinite. intros Hz Hz' Hc Hc0.
  apply Prim2SF_inj. rewrite !FloatAxioms.sub_spec.
  by destruct (Prim2SF z), (Prim2SF z'), (Prim2SF c).
Qed.

Lemma min_from_nan (lowest : float) (values : list float) :
  nan ∈ values → min_from lowest values = nan.
Proof.
  revert lowest. induction values as [|number values IH]; intros lowest Hin.
  - by apply elem_of_nil in Hin.
  - cbn [min_from]. destruct (isNaN number) eqn:Hnan; [done|].
    apply elem_of_cons in Hin as [<-|Hin]; [done|].
    destruct (_ && _); [by apply IH|]. destruct (_ <? _)%float; by apply IH.
Qed.

Lemma min_from_constant (v : float) (values : list float) :
  isNaN v = false → Forall (eq v) values → min_from v values = v.
Proof.
  intros Hv. induction 1 as [|number values <- _ IH]; [done|].
  cbn [min_from]. rewrite Hv, float_ltb_irrefl.
  by destruct (isNegativeZero v && isPositiveZero v).
Qed.

Lemma max_from_constant (v : float) (values : list float) :
  isNaN v = false → Forall (eq v) values → max_from v values = v.
Proof.
  intros Hv. induction 1 as [|number values <- _ IH]; [done|].
  cbn [max_from]. rewrite Hv, float_ltb_irrefl.
  by destruct (isPositiveZero v && isNegativeZero v).
Qed.

Lemma isFinite_not_NaN (v : float) : Number.isFinite v = true → isNaN v = false.
Proof. unfold Number.isFinite, isNaN. by destruct (Prim2SF v). Qed.

Lemma min_constant (v : float) (values : list float) :
  Number.isFinite v = true → values ≠ [] → Forall (eq v) values →
  Math.min values = v.
Proof.
  intros Hv Hne Hall. destruct Hall as [|number values <- Hall]; [done|].
  unfold Math.min. cbn [min_from].
  rewrite (isFinite_not_NaN v Hv), (float_ltb_infinity v Hv).
  change (isPositiveZero infinity) with false. rewrite andb_false_r.
  by apply min_from_constant; [apply isFinite_not_NaN|].
Qed.

Lemma max_constant (v : float) (values : list float) :
  Number.isFinite v = true → values ≠ [] → Forall (eq v) values →
  Math.max values = v.
Proof.
  intros Hv Hne Hall. destruct Hall as [|number values <- Hall]; [done|].
  unfold Math.max. cbn [max_from].
  rewrite (isFinite_not_NaN v Hv), (float_ltb_neg_infinity v Hv).
  change (isNegativeZero neg_infinity) with false. rewrite andb_false_r.
  by apply max_from_constant; [apply isFinite_not_NaN|].
Qed.

End plot_arithmetic.

Lemma path_y_drawSeries (width height min range : float)
    (history : list Sample.t) (key : Sample.t → float) (color : string)
    (op : CanvasOp) :
  op ∈ drawSeries width height min range history key color →
  path_y op = None
  ∨ ∃ entry, entry ∈ history
      ∧ path_y op
        = Some (height - (key entry - min) / range * (height - 20) - 10)%float.
Proof.
  unfold drawSeries. rewrite !elem_of_app, elem_of_lookup_imap.
  intros [Hhead|[(index & entry & -> & Hentry)|Hlast]].
  - left. set_unfold in Hhead. by destruct Hhead as [->|[->|[->|[]]]].
  - right. exists entry. split; [by eapply list_elem_of_lookup_2|].
    by destruct index.
  - left. set_unfold in Hlast. by destruct Hlast as [->|[]].
Qed.

Lemma drop_drawPlot_canvas (width height : float) (s : Session) :
  drop 25 (drawPlot_canvas width height s)
  = if ctx s then plot_series width height (history s) else [].
Proof. unfold drawPlot_canvas. by destruct (ctx s). Qed.

(** The points of the two curves: each has the vertical coordinate that
    [drawSeries] computes from a value of the history. *)
Lemma path_y_plot (width height : float) (s : Session) (op : CanvasOp) :
  op ∈ drop 25 (drawPlot_canvas width height s) →
  path_y op = None
  ∨ ∃ v, v ∈ plot_values (history s)
      ∧ path_y op
        = Some (height
                - (v - Math.min (plot_values (history s)))
                  / Math.or_else (Math.max (plot_values (history s))
                                  - Math.min (plot_values (history s))) 1
                  * (height - 20)
                - 10)%float.
Proof.
  rewrite drop_drawPlot_canvas. destruct (ctx s); [|by intros ?%elem_of_nil].
  unfold plot_series. destruct (_ <? 2); [by intros ?%elem_of_nil|].
  cbv zeta. rewrite elem_of_app.
  intros [Hop|Hop]; apply path_y_drawSeries in Hop as [Hnone|(entry & Hin & Hy)];
    [by left| |by left|]; right.
  - exists (Sample.primary entry). split; [|done].
    unfold plot_values. apply list_elem_of_In, in_flat_map.
    exists entry. split; [by apply list_elem_of_In|]. by left.
  - exists (Sample.secondary entry). split; [|done].
    unfold plot_values. apply list_elem_of_In, in_flat_map.
    exists entry. split; [by apply list_elem_of_In|]. right. by left.
Qed.

(** X14: one NaN among the primary and secondary values of the history
    and both curves are lost: every point [drawPlot] adds to a curve has the
    vertical coordinate NaN. *)
Theorem plot_nan_sample (width height : float) (s : Session) :
  nan ∈ plot_values (history s) →
  Forall (λ op, path_y op = None ∨ path_y op = Some nan)
    (drop 25 (drawPlot_canvas width height s)).
Proof.
  intros Hnan. apply Forall_forall. intros op Hop.
  apply path_y_plot in Hop as [Hnone|(v & _ & ->)]; [by left|].
  right. f_equal. unfold Math.min. rewrite (min_from_nan _ _ Hnan).
  by rewrite float_sub_nan_r, float_div_nan_l, NumberFacts.mul_nan_l,
    float_sub_nan_r, float_sub_nan_l.
Qed.

Lemma plot_nan_sample_witness :
  Forall (λ op, path_y op = None ∨ path_y op = Some nan)
    (drop 25 (drawPlot_canvas 800 400
                (Nat.iter 5 (frame (mkInputs 2 10))
                   (runBtn_click predator_idle)))).
Proof.
  apply (plot_nan_sample 800 400
           (Nat.iter 5 (frame (mkInputs 2 10)) (runBtn_click predator_idle))).
  apply (list_elem_of_lookup_2 _ 8). by vm_compute.
Defined.

(** X15: when every primary and secondary value of the history is the same
    finite number, the range [max - min] is replaced by 1 and both curves
    are drawn along the line [y = height - 10]. *)
Theorem plot_flat_history (width height v : float) (s : Session) :
  Number.isFinite v = true →
  Number.isFinite (height - 20) = true →
  Forall (eq v) (plot_values (history s)) →
  Forall (λ op, path_y op = None ∨ path_y op = Some (height - 10)%float)
    (drop 25 (drawPlot_canvas width height s)).
Proof.
  intros Hv Hheight Hall. apply Forall_forall. intros op Hop.
  apply path_y_plot in Hop as [Hnone|(v' & Hin & ->)]; [by left|].
  right. f_equal.
  assert (plot_values (history s) ≠ []) as Hne
    by (intros Heq; rewrite Heq in Hin; by apply elem_of_nil in Hin).
  rewrite (min_constant v), (max_constant v) by done.
  rewrite Forall_forall in Hall. rewrite <- (Hall v' Hin).
  rewrite (float_sub_diag v Hv).
  change (Math.or_else 0 1) with 1%float. change (0 / 1)%float with 0%float.
  assert (Number.isZero (0 * (height - 20)) = true) as Hzero
    by (by apply NumberFacts.isZero_mul_finite).
  destruct (float_sub_isZero height _ Hzero) as [->|[Hh Hz]]; [done|].
  by apply float_zero_sub.
Qed.

Lemma plot_flat_history_witness :
  Forall (λ op, path_y op = None ∨ path_y op = Some (400 - 10)%float)
    (drop 25 (drawPlot_canvas 800 400 flat_session)).
Proof.
  apply (plot_flat_history 800 400 3 flat_session); [reflexivity..|].
  unfold flat_session, plot_values. simpl. by repeat constructor.
Defined.

(** ** The models of the table in use *)

Lemma table_model_handle (Math_sin : float → float) (s : Session) (e : Event) :
  table_event Math_sin e →
  table_model Math_sin (currentModel s) →
  table_model Math_sin (currentModel (handle s e)).
Proof.
  intros He Hs. destruct e as [inputs| | | |key value|m]; simpl.
  - unfold frame. destruct (pending s) as [|n]; [done|].
    unfold tick. simpl. destruct (running s); simpl; [|done].
    destruct (_ <=? _)%float; [done|].
    destruct (Model.series _ _) as [primary secondary].
    unfold drawPlot. simpl. by destruct (ctx s).
  - unfold runBtn_click. by destruct (running s).
  - done.
  - unfold resetBtn_click.
    by destruct (resetSimulation_fields s) as (_ & _ & _ & _ & _ & -> & _).
  - unfold parameter_input. destruct (find_parameter key s); [|done]. simpl.
    destruct Hs as (v & ps & ->). by exists v, (assign_value key value ps).
  - unfold modelSelect_change.
    by destruct (resetSimulation_fields (set_currentModel m s))
      as (_ & _ & _ & _ & _ & -> & _).
Qed.

Lemma table_model_proto (Math_sin : float → float) (m : Model.t) :
  table_model Math_sin m → Js.proto ∉ dom (Model.state m).
Proof.
  intros (v & ps & ->). apply not_elem_of_dom. by destruct v.
Qed.

(** X16: on the page as it is (the selector offers the three entries of
    the table), in every session reached from the loaded page, each of the
    four deltas the integrator obtains at the next step has exactly the
    fields of the state: the case of a missing or an extra field does not
    arise with the models of the table. *)
Theorem table_stages_keys (Math_sin : float → float) (status : option string)
    (has_ctx : bool) (metric0 : float) (events : list Event) (dt : float) :
  Forall (table_event Math_sin) events →
  let s := foldl handle (page_load Math_sin status has_ctx metric0) events in
  Forall (λ k, dom k = dom (state s))
    (rk4_stages (state s) (getParams s) (time s) dt
       (Model.derivatives (currentModel s))).
Proof.
  intros Hevents. cbv zeta.
  assert (table_model Math_sin
            (currentModel (page_load Math_sin status has_ctx metric0))
          ∧ keys_kept (page_load Math_sin status has_ctx metric0)) as Hs.
  { split; [by exists Spring, (Model.parameters (models.spring Math_sin))|].
    split; [done|]. by apply subseteq_difference_l. }
  revert Hs. generalize (page_load Math_sin status has_ctx metric0).
  induction Hevents as [|e events He _ IH]; intros s [Hm Hkeys]; simpl.
  - apply keys_kept_match in Hkeys; [|by apply (table_model_proto Math_sin)].
    unfold keys_match in Hkeys. rewrite Hkeys.
    destruct Hm as (v & ps & ->). unfold rk4_stages. simpl.
    repeat apply Forall_cons_2; [..|apply Forall_nil_2];
      apply models_derivatives_dom.
  - apply IH. split; [by apply table_model_handle|by apply keys_kept_handle].
Qed.

Lemma table_stages_keys_witness :
  let s := foldl handle (page_load (λ _, 0%float) None true 0)
             [ModelSelect models.predator; RunClick;
              AnimationFrame scenario_inputs] in
  Forall (λ k, dom k = dom (state s))
    (rk4_stages (state s) (getParams s) (time s) 0.05
       (Model.derivatives (currentModel s))).
Proof.
  apply (table_stages_keys (λ _, 0%float) None true 0
           [ModelSelect models.predator; RunClick;
            AnimationFrame scenario_inputs] 0.05).
  repeat constructor.
  by exists Predator, (Model.parameters models.predator).
Defined.

(** ** Reset *)

Lemma resetSimulation_determined (s1 s2 : Session) :
  currentModel s1 = currentModel s2 → ctx s1 = ctx s2 →
  (canvasStatus s1 = None ↔ canvasStatus s2 = None) →
  set_pending 0 (resetSimulation s1) = set_pending 0 (resetSimulation s2).
Proof.
  destruct s1 as [m1 st1 t1 n1 r1 h1 [status1|] c1 e1 p1],
    s2 as [m2 st2 t2 n2 r2 h2 [status2|] c2 e2 p2]; simpl;
    intros -> -> [H1 H2]; try done; try (by specialize (H1 eq_refl));
    try (by specialize (H2 eq_refl)).
  all: unfold resetSimulation, drawPlot; simpl; by destruct c2.
Qed.

Lemma run_event_view (s : Session) (e : Event) :
  run_event e →
  currentModel (handle s e) = currentModel s
  ∧ ctx (handle s e) = ctx s
  ∧ (canvasStatus (handle s e) = None ↔ canvasStatus s = None).
Proof.
  destruct e as [inputs| | | |key value|m]; simpl; intros He; try done.
  - unfold frame. destruct (pending s) as [|n]; [done|].
    unfold tick. simpl. destruct (running s); simpl; [|done].
    destruct (_ <=? _)%float; simpl.
    + by destruct (canvasStatus s).
    + destruct (Model.series _ _) as [primary secondary].
      unfold drawPlot. simpl.
      by destruct (ctx s) eqn:Hc, (canvasStatus s); simpl; rewrite ?Hc.
  - unfold runBtn_click. destruct (running s); [done|]. simpl.
    by destruct (canvasStatus s).
  - by destruct (canvasStatus s).
Qed.

(** X17: a reset forgets the run.  Whatever callbacks and clicks on Run
    and Pause came before, Reset leads to the same session as a reset before
    them, pending callbacks apart: the same state, time, step, history,
    status line and metric.  In particular a second reset changes nothing. *)
Theorem reset_forgets_run (s : Session) (events : list Event) :
  Forall run_event events →
  set_pending 0 (resetSimulation (foldl handle s events))
  = set_pending 0 (resetSimulation s)
  ∧ resetSimulation (resetSimulation s) = resetSimulation s.
Proof.
  intros Hevents. split.
  - apply resetSimulation_determined.
    all: revert s; induction Hevents as [|e events He _ IH]; intros s; simpl;
      [done|]; rewrite IH; by apply run_event_view.
  - destruct s as [m st t n r h [status|] c e p];
      unfold resetSimulation, drawPlot; simpl; by destruct c.
Qed.

Lemma reset_forgets_run_witness :
  set_pending 0
    (resetSimulation
       (foldl handle predator_idle
          [RunClick; AnimationFrame scenario_inputs;
           AnimationFrame scenario_inputs; PauseClick]))
  = set_pending 0 (resetSimulation predator_idle)
  ∧ resetSimulation (resetSimulation predator_idle)
    = resetSimulation predator_idle.
Proof.
  apply (reset_forgets_run predator_idle
           [RunClick; AnimationFrame scenario_inputs;
            AnimationFrame scenario_inputs; PauseClick]).
  by repeat constructor.
Defined.

(** ** Edits, samples and the step counter along a run *)

(** X18: a parameter edit takes effect at the very next step.  With
    distinct declared keys, an accepted edit shows in the next snapshot
    and nowhere else ([getParams] after it is [getParams] before it with
    [value] assigned under [key], and the declared keys are the same), and
    the tick that follows integrates the unchanged state with that
    snapshot. *)
Theorem edit_then_tick (key : string) (value : float) (inputs : Inputs)
    (s s' : Session) :
  NoDup (declared_keys s) →
  parameter_input key value s = Some s' →
  running s = true →
  (timeHorizonInput inputs <=? time s)%float = false →
  getParams s' = Js.set key value (getParams s)
  ∧ declared_keys s' = declared_keys s
  ∧ state (tick inputs s')
    = rk4Step (state s) (Js.set key value (getParams s)) (time s)
        (stepSizeInput inputs) (Model.derivatives (currentModel s))
  ∧ time (tick inputs s') = (time s + stepSizeInput inputs)%float.
Proof.
  intros Hnodup Hedit Hr Hh.
  pose proof (parameter_input_find key value s) as Hfind.
  rewrite Hedit in Hfind. destruct Hfind as (p & Hp & Hp' & Hother & Hkeys).
  assert (getParams s' = Js.set key value (getParams s)) as Hparams.
  { apply map_eq. intros key'.
    rewrite (getParams_find key' s') by (unfold declared_keys; by rewrite Hkeys).
    rewrite lookup_set by apply getParams_proto.
    destruct (String.eqb key' Js.proto) eqn:Hproto; [done|].
    destruct (decide (key' = key)) as [->|Hne].
    - by rewrite Hp'.
    - by rewrite (getParams_find key' s), Hproto, Hother. }
  split; [done|]. split; [done|]. rewrite <- Hparams.
  unfold parameter_input in Hedit.
  destruct (find_parameter key s); [|done]. injection Hedit as <-.
  unfold tick. simpl. rewrite Hr, Hh. simpl.
  destruct (Model.series _ _) as [primary secondary].
  unfold drawPlot. simpl. by destruct (ctx s).
Qed.

Lemma edit_then_tick_witness :
  let s := runBtn_click predator_idle in
  let s' := default s (parameter_input "alpha" 2 s) in
  getParams s' = Js.set "alpha" 2%float (getParams s)
  ∧ declared_keys s' = declared_keys s
  ∧ state (tick scenario_inputs s')
    = rk4Step (state s) (Js.set "alpha" 2%float (getParams s)) (time s)
        (stepSizeInput scenario_inputs) (Model.derivatives (currentModel s))
  ∧ time (tick scenario_inputs s')
    = (time s + stepSizeInput scenario_inputs)%float.
Proof.
  apply (edit_then_tick "alpha" 2 scenario_inputs (runBtn_click predator_idle)).
  - apply (bool_decide_unpack _). by vm_compute.
  - reflexivity.
  - reflexivity.
  - reflexivity.
Defined.

Lemma newest_sample_handle (s : Session) (e : Event) :
  newest_sample_current s → newest_sample_current (handle s e).
Proof.
  unfold newest_sample_current. intros Hs.
  destruct e as [inputs| | | |key value|m]; simpl.
  - unfold frame. destruct (pending s) as [|n]; [done|].
    unfold tick. simpl. destruct (running s); simpl; [|done].
    destruct (_ <=? _)%float; [done|].
    destruct (Model.series _ (rk4Step _ _ _ _ _))
      as [primary secondary] eqn:Hseries.
    unfold drawPlot. simpl.
    destruct (ctx s); simpl; rewrite Hseries, last_history_push; by right.
  - unfold runBtn_click. by destruct (running s).
  - done.
  - left. apply history_resetSimulation.
  - unfold parameter_input. by destruct (find_parameter key s).
  - left. apply history_resetSimulation.
Qed.

(** X19: from the loaded page, after any sequence of callbacks, clicks,
    parameter edits and model selections, the history is empty or its
    newest sample is the projection of the current state, stamped with the
    current time. *)
Theorem newest_sample_invariant (Math_sin : float → float)
    (status : option string) (has_ctx : bool) (metric0 : float)
    (events : list Event) :
  newest_sample_current
    (foldl handle (page_load Math_sin status has_ctx metric0) events).
Proof.
  assert (newest_sample_current (page_load Math_sin status has_ctx metric0))
    as Hs by (by left).
  revert Hs. generalize (page_load Math_sin status has_ctx metric0).
  induction events as [|e events IH]; intros s Hs; simpl; [done|].
  by apply IH, newest_sample_handle.
Qed.

Lemma push_length_min (n : nat) :
  (let m := S (Nat.min 800 n) in if 800 <? m then Nat.pred m else m)
  = Nat.min 800 (S n).
Proof.
  cbv zeta. change (Nat.pred (S (Nat.min 800 n))) with (Nat.min 800 n).
  destruct (Nat.ltb_spec 800 (S (Nat.min 800 n))); lia.
Qed.

Lemma steps_counted_handle (n : nat) (s : Session) (e : Event) :
  steps_counted n s →
  steps_counted
    match e with
    | AnimationFrame inputs => if executes inputs s then S n else n
    | ResetClick | ModelSelect _ => 0
    | RunClick | PauseClick | ParameterInput _ _ => n
    end
    (handle s e).
Proof.
  unfold steps_counted. intros [Hstep Hlen].
  destruct e as [inputs| | | |key value|m]; simpl.
  - pose proof (clock_frame_spec inputs s) as Hc.
    assert (step (frame inputs s) = c_step (clock_frame inputs (clock s))
            ∧ length (history (frame inputs s))
              = c_length (clock_frame inputs (clock s))) as [-> ->]
      by (by rewrite <- Hc).
    unfold clock_frame, clock_tick, clock, executes.
    cbn [c_pending c_running c_time c_step c_length].
    destruct (pending s) as [|p]; cbn [c_pending c_running c_time c_step c_length];
      [done|].
    destruct (running s); simpl negb; cbv iota; [|done].
    destruct (_ <=? _)%float; cbn [c_step c_length negb andb]; [done|].
    split.
    + unfold time_after in *. simpl. by rewrite Hstep.
    + rewrite Hlen. apply push_length_min.
  - unfold runBtn_click. by destruct (running s).
  - done.
  - unfold resetBtn_click.
    by destruct (resetSimulation_fields s) as (_ & -> & _ & -> & _).
  - unfold parameter_input. by destruct (find_parameter key s).
  - unfold modelSelect_change.
    by destruct (resetSimulation_fields (set_currentModel m s))
      as (_ & -> & _ & -> & _).
Qed.

Lemma steps_counted_events (events : list Event) (n : nat) (s : Session) :
  steps_counted n s →
  steps_counted (executed_steps n s events) (foldl handle s events).
Proof.
  revert n s. induction events as [|e events IH]; intros n s Hs; [done|].
  cbn [foldl executed_steps]. by apply IH, steps_counted_handle.
Qed.

(** X20: from the loaded page, after any sequence of callbacks, clicks,
    parameter edits and model selections, the step counter is [0] raised by
    one [n] times, [n] being the number of integration steps executed since
    the last reset or selection, and the history holds [n] samples, or 800
    once [n] is larger. *)
Theorem steps_counted_invariant (Math_sin : float → float)
    (status : option string) (has_ctx : bool) (metric0 : float)
    (events : list Event) :
  let s0 := page_load Math_sin status has_ctx metric0 in
  steps_counted (executed_steps 0 s0 events) (foldl handle s0 events).
Proof. cbv zeta. by apply steps_counted_events. Qed.

(** ** The integrator on the page *)

Lemma table_model_plain (Math_sin : float → float) (m : Model.t) :
  table_model Math_sin m → Js.plain (Model.state m).
Proof.
  intros (v & ps & ->). destruct v; apply (bool_decide_unpack _); by vm_compute.
Qed.

Lemma plain_dom {A B : Type} (o : gmap string A) (o' : gmap string B) :
  dom o = dom o' → Js.plain o' → Js.plain o.
Proof.
  intros Hdom Hplain key x Hx.
  assert (key ∈ dom o') as [y Hy]%elem_of_dom
    by (rewrite <- Hdom; apply elem_of_dom; eauto).
  by apply (Hplain key y).
Qed.

Lemma table_session_reachable (Math_sin : float → float)
    (status : option string) (has_ctx : bool) (metric0 : float)
    (events : list Event) :
  Forall (table_event Math_sin) events →
  table_model Math_sin
    (currentModel
       (foldl handle (page_load Math_sin status has_ctx metric0) events)).
Proof.
  intros Hevents.
  assert (table_model Math_sin
            (currentModel (page_load Math_sin status has_ctx metric0))) as Hs
    by (by exists Spring, (Model.parameters (models.spring Math_sin))).
  revert Hs. generalize (page_load Math_sin status has_ctx metric0).
  induction Hevents as [|e events He _ IH]; intros s Hs; simpl; [done|].
  by apply IH, table_model_handle.
Qed.

(** X21: on the page as it is, the state of every session reached from the
    loaded page has plain field names (those of a state of the table), so
    that no sum of the integrator is a string: the step that [tick] takes,
    computed on the numbers, is the object that [rk4Step] returns. *)
Theorem page_state_plain (Math_sin : float → float) (status : option string)
    (has_ctx : bool) (metric0 : float) (events : list Event) (dt : float)
    (derivativeFn : Js.Derivative) :
  Forall (table_event Math_sin) events →
  let s := foldl handle (page_load Math_sin status has_ctx metric0) events in
  (∀ o p t,
     derivativeFn (Js.of_numbers o) p t
     = Js.of_numbers (Model.derivatives (currentModel s) o p t)) →
  Js.plain (state s)
  ∧ Js.rk4Step (Js.of_numbers (state s)) (getParams s) (time s) dt derivativeFn
    = Js.of_numbers
        (rk4Step (state s) (getParams s) (time s) dt
           (Model.derivatives (currentModel s))).
Proof.
  intros Hevents. cbv zeta. intros HF.
  pose proof (table_session_reachable Math_sin status has_ctx metric0 events
                Hevents) as Hm.
  pose proof (keys_kept_reachable Math_sin status has_ctx metric0 events)
    as Hkeys.
  apply keys_kept_match in Hkeys; [|by apply (table_model_proto Math_sin)].
  assert (Js.plain
            (state (foldl handle (page_load Math_sin status has_ctx metric0)
                      events))) as Hplain
    by (eapply plain_dom; [exact Hkeys|by apply (table_model_plain Math_sin)]).
  split; [done|]. by apply rk4Step_of_numbers.
Qed.

Lemma page_state_plain_witness :
  let s := foldl handle (page_load (λ _, 0%float) None true 0)
             [ModelSelect models.predator; RunClick;
              AnimationFrame scenario_inputs] in
  Js.plain (state s)
  ∧ Js.rk4Step (Js.of_numbers (state s)) (getParams s) (time s) 0.05
      (λ o p t, Js.of_numbers
                  (Model.derivatives models.predator (Js.numbers o) p t))
    = Js.of_numbers
        (rk4Step (state s) (getParams s) (time s) 0.05
           (Model.derivatives (currentModel s))).
Proof.
  apply (page_state_plain (λ _, 0%float) None true 0
           [ModelSelect models.predator; RunClick;
            AnimationFrame scenario_inputs] 0.05
           (λ o p t, Js.of_numbers
                       (Model.derivatives models.predator (Js.numbers o) p t))).
  - repeat constructor. by exists Predator, (Model.parameters models.predator).
  - intros o p t. by rewrite numbers_of_numbers.
Defined.
